(** * Ethiopia earthquake dashboard: classification, novelty tracking,
      filtering and export

    A shallow embedding of the core of
    [src/Component/EarthquakeDashboard.js] (the later, fuller component:
    [isEthiopiaLocation], [generateKML], [fetchEarthquakes], the filter
    effect, [downloadCSV] and [downloadKMZ]) together with the properties
    the specification states about it.

    Modelling conventions.
    - A JavaScript string is a [string] (a sequence of bytes): place texts
      are taken UTF-8 encoded, and [toLowerCase] folds the ASCII letters
      only.  No keyword of the classifier holds a byte above 127.
    - Epoch-millisecond timestamps are integers ([Z]).  A [Date] is an
      [option Z], [None] standing for an invalid date: [new Date(t)] is
      valid only for [t] within 8.64e15 milliseconds of the epoch
      ([newDate]), a comparison with an invalid date is false, and its
      [toISOString] raises.
    - The clock is read several times in a cycle; each reading is a
      parameter of its own ([Clock]).
    - The other numbers (magnitude, coordinates), the formatting functions
      of the JavaScript runtime and its local-time arithmetic are the
      fields of the class [JsRuntime].
    - [null], [undefined] and an absent property are all [None].
    - React state is a record threaded through the operations; the requests
      an operation sends to the browser (alert boxes, speech, saved files)
      are returned as a list of [Effect]s.
    - The state writes of one handler or continuation are applied together,
      and the effects that depend on them run before the next event.
    - [fetchEarthquakes] and [runCycles] are cycles that run one after
      another, each on the state the previous one left.  The events of the
      mounted component ([step]) separate the call from the arrival of the
      response, which carries the state its callback closed over, so that
      calls may overlap there.
    - The payload is typed as the feed documents it: [time] a number or
      [null], [mag] a number or [null], [place] and [url] strings or
      [null]. *)

From Stdlib Require Import Ascii String ZArith List Bool Lia.
From stdpp Require Import base option list strings gmap.

Local Open Scope Z_scope.

(** stdpp blocks [simpl] on string concatenation; the proofs below compute
    with it. *)
#[local] Arguments String.append !_ _ / : simpl nomatch.

(** ** JavaScript string primitives *)

Module Js.

(** [s.startsWith(p)] *)
Fixpoint startsWith (s p : string) : bool :=
  match p, s with
  | EmptyString, _ => true
  | String _ _, EmptyString => false
  | String a p', String b s' => if Ascii.eqb a b then startsWith s' p' else false
  end.

(** [s.includes(sub)] *)
Fixpoint includes (s sub : string) : bool :=
  startsWith s sub ||
  match s with
  | EmptyString => false
  | String _ s' => includes s' sub
  end.

(** The characters of [s] from position [n] on. *)
Fixpoint drop (n : nat) (s : string) : string :=
  match n, s with
  | O, _ => s
  | S _, EmptyString => EmptyString
  | S n', String _ s' => drop n' s'
  end.

(** [cut sep s] finds the first occurrence of [sep] in [s] and returns the
    text before it and the text after it. *)
Fixpoint cut (sep s : string) : option (string * string) :=
  if startsWith s sep then Some (EmptyString, drop (String.length sep) s)
  else
    match s with
    | EmptyString => None
    | String c s' =>
        match cut sep s' with
        | Some (before, after) => Some (String c before, after)
        | None => None
        end
    end.

Fixpoint split_fuel (fuel : nat) (sep s : string) : list string :=
  match fuel with
  | O => [s]
  | S fuel' =>
      match cut sep s with
      | None => [s]
      | Some (before, after) => before :: split_fuel fuel' sep after
      end
  end.

(** [s.split(sep)] for a non-empty separator: each cut consumes at least
    one character, so [length s] rounds are enough (see [split_fuel_enough]). *)
Definition split (sep s : string) : list string :=
  split_fuel (String.length s) sep s.

(** [arr.join(sep)] *)
Fixpoint join (sep : string) (l : list string) : string :=
  match l with
  | [] => EmptyString
  | [x] => x
  | x :: l' => x +:+ sep +:+ join sep l'
  end.

Definition lower_ascii (c : ascii) : ascii :=
  let n := nat_of_ascii c in
  if (Nat.leb 65 n && Nat.leb n 90)%bool then ascii_of_nat (n + 32) else c.

(** [s.toLowerCase()] on ASCII letters. *)
Fixpoint toLowerCase (s : string) : string :=
  match s with
  | EmptyString => EmptyString
  | String c s' => String (lower_ascii c) (toLowerCase s')
  end.

Definition is_space (c : ascii) : bool :=
  let n := nat_of_ascii c in
  (Nat.eqb n 32 || (Nat.leb 9 n && Nat.leb n 13))%bool.

Fixpoint trimStart (s : string) : string :=
  match s with
  | EmptyString => EmptyString
  | String c s' => if is_space c then trimStart s' else s
  end.

Fixpoint trimEnd (s : string) : string :=
  match s with
  | EmptyString => EmptyString
  | String c s' =>
      match trimEnd s' with
      | EmptyString => if is_space c then EmptyString else String c EmptyString
      | t => String c t
      end
  end.

(** [s.trim()] *)
Definition trim (s : string) : string := trimEnd (trimStart s).

(** A template literal, as the sequence of its chunks. *)
Definition template (chunks : list string) : string :=
  fold_right String.append EmptyString chunks.

(** [a || b] on strings: the empty string is falsy. *)
Definition or_else (a : option string) (b : string) : string :=
  match a with
  | Some (String c s) => String c s
  | _ => b
  end.

End Js.

(** ** GeoClassifier: [isEthiopiaLocation] *)

Definition excludeCountries : list string :=
  [ "yemen"; "eritrea"; "sudan"; "south sudan"; "kenya"; "somalia"; "djibouti";
    "egypt"; "libya"; "chad"; "congo"; "uganda"; "tanzania"; "rwanda"; "burundi" ].

Definition ethiopiaKeywords : list string :=
  [ "ethiopia"; "ethiopian"; "abyssinia"; "abyssinian";
    (* Regions *)
    "addis ababa"; "afar"; "amhara"; "oromia"; "tigray"; "somali"; "gambela";
    "harari"; "sidama"; "snnpr"; "dire dawa"; "benishangul"; "gumuz";
    (* Major cities *)
    "bahir dar"; "mekelle"; "gondar"; "jimma"; "jijiga"; "dessie"; "hawassa";
    "harar"; "debre berhan"; "arba minch"; "shashamane"; "nekemte"; "assosa"; "semera";
    (* Zones *)
    "gojjam"; "wollo"; "gonder"; "wolayita"; "gurage"; "hadiya"; "kembata";
    "silte"; "bale"; "arsi"; "hararghe"; "borena"; "guji"; "illubabor"; "wollega";
    "welega"; "gamo"; "gofa"; "keffa"; "sheka"; "bench"; "dawuro";
    (* Geographic features *)
    "rift valley"; "awash"; "lake tana"; "blue nile"; "omo river"; "abaya";
    "chamo"; "ziway"; "langano"; "shala"; "awasa"; "tana"; "tsana" ].

(** The first loop: some excluded country occurs in the text and
    ["ethiopia"] does not. *)
Definition excluded (placeLower : string) : bool :=
  existsb (fun country =>
             Js.includes placeLower country && negb (Js.includes placeLower "ethiopia"))
          excludeCountries.

(** The keyword loop, run on [placeLower] and again on [afterOf]. *)
Definition hasKeyword (text : string) : bool :=
  existsb (fun keyword => Js.includes text keyword) ethiopiaKeywords.

(** [placeLower.split('of ')[1]]; the index exists whenever the text
    includes the separator (see [split_second_is_Some]). *)
Definition afterOf (placeLower : string) : option string :=
  Js.split "of " placeLower !! 1%nat.

Definition isEthiopiaLocation (place : option string) : bool :=
  match place with
  | None | Some EmptyString => false
  | Some place =>
      let placeLower := Js.toLowerCase place in
      if excluded placeLower then false
      else if hasKeyword placeLower then true
      else if Js.includes placeLower "of " then
        match afterOf placeLower with
        | Some afterOf => hasKeyword afterOf
        | None => false
        end
      else false
  end.

(** The specification's wording of the directional pass: the text that
    follows the first occurrence of the separator. *)
Definition afterFirst (sep s : string) : string :=
  match Js.cut sep s with
  | Some (_, after) => after
  | None => EmptyString
  end.

(** ** Data model *)

(** What the program asks of the JavaScript runtime: numbers with [>=],
    number and date formatting, date parsing, and the local time zone. *)
Class JsRuntime := {
  num : Type;
  num_ge : num -> num -> bool;              (* [a >= b] *)
  toFixed : num -> nat -> string;           (* [x.toFixed(d)] *)
  num_toString : num -> string;             (* [x] inside a template literal *)
  Date_parse : string -> option Z;          (* [new Date(s)], [None] when invalid *)
  toISOString : Z -> string;                (* [d.toISOString()] of a valid date *)
  toLocaleString : option Z -> string;      (* [d.toLocaleString()] *)
  hourBefore : Z -> option Z;               (* [d.setHours(d.getHours() - 1)] *)
}.

Section Dashboard.
Context `{JsRuntime}.

(** One feature of the feed's GeoJSON collection. *)
Record Properties := {
  time : option Z;
  mag : option num;
  place : option string;
  url : option string;
}.

Record Geometry := {
  coordinates : option (list (option num));
}.

Record Feature := {
  id : option string;
  geometry : option Geometry;
  properties : option Properties;
}.

(** [eq.properties?.field] *)
Definition prop {A} (field : Properties -> option A) (eq : Feature) : option A :=
  properties eq ≫= field.

(** Truthiness of a number-valued and of a string-valued property. *)
Definition truthyZ (t : option Z) : bool :=
  match t with Some t => negb (t =? 0) | None => false end.

Definition truthyS (s : option string) : bool :=
  match s with Some (String _ _) => true | _ => false end.

(** [new Date(t)] for a number [t]: the time value is clipped, and a date
    more than 8.64e15 milliseconds from the epoch is invalid. *)
Definition inDateRange (t : Z) : bool :=
  (-8640000000000000 <=? t) && (t <=? 8640000000000000).

Definition newDate (t : Z) : option Z :=
  if inDateRange t then Some t else None.

(** [a > b], [a >= b] and [a <= b] on dates: both sides convert to their
    time value, NaN for an invalid date, and a comparison with NaN is
    false. *)
Definition Date_gt (a b : option Z) : bool :=
  match a, b with Some a, Some b => b <? a | _, _ => false end.

Definition Date_ge (a b : option Z) : bool :=
  match a, b with Some a, Some b => b <=? a | _, _ => false end.

Definition Date_le (a b : option Z) : bool :=
  match a, b with Some a, Some b => a <=? b | _, _ => false end.

(** The clock readings of one polling cycle, in the order the source takes
    them. *)
Record Clock := {
  atNovelty : Z;        (* [Date.now()] of the novelty test *)
  atRecent : Z;         (* [new Date()] of the recent count, after the alert box *)
  atUpdate : Z;         (* [new Date()] stored in [lastUpdated] *)
}.

(** The component's state hooks. *)
Record State := {
  earthquakes : list Feature;
  filteredEarthquakes : list Feature;
  startDate : string;
  endDate : string;
  minMag : num;
  recentCount : nat;
  isLoading : bool;
  lastUpdated : Z;
  previousEarthquakeIds : gset string;
  announcedEarthquakeIds : gset string;
  isDownloading : bool;
  showDebug : bool;
  showMobileFilters : bool;
}.

Definition setEarthquakes v s := {|
  earthquakes := v; filteredEarthquakes := filteredEarthquakes s;
  startDate := startDate s; endDate := endDate s; minMag := minMag s;
  recentCount := recentCount s; isLoading := isLoading s;
  lastUpdated := lastUpdated s;
  previousEarthquakeIds := previousEarthquakeIds s;
  announcedEarthquakeIds := announcedEarthquakeIds s;
  isDownloading := isDownloading s; showDebug := showDebug s;
  showMobileFilters := showMobileFilters s |}.

Definition setFilteredEarthquakes v s := {|
  earthquakes := earthquakes s; filteredEarthquakes := v;
  startDate := startDate s; endDate := endDate s; minMag := minMag s;
  recentCount := recentCount s; isLoading := isLoading s;
  lastUpdated := lastUpdated s;
  previousEarthquakeIds := previousEarthquakeIds s;
  announcedEarthquakeIds := announcedEarthquakeIds s;
  isDownloading := isDownloading s; showDebug := showDebug s;
  showMobileFilters := showMobileFilters s |}.

Definition setRecentCount v s := {|
  earthquakes := earthquakes s; filteredEarthquakes := filteredEarthquakes s;
  startDate := startDate s; endDate := endDate s; minMag := minMag s;
  recentCount := v; isLoading := isLoading s;
  lastUpdated := lastUpdated s;
  previousEarthquakeIds := previousEarthquakeIds s;
  announcedEarthquakeIds := announcedEarthquakeIds s;
  isDownloading := isDownloading s; showDebug := showDebug s;
  showMobileFilters := showMobileFilters s |}.

Definition setIsLoading v s := {|
  earthquakes := earthquakes s; filteredEarthquakes := filteredEarthquakes s;
  startDate := startDate s; endDate := endDate s; minMag := minMag s;
  recentCount := recentCount s; isLoading := v;
  lastUpdated := lastUpdated s;
  previousEarthquakeIds := previousEarthquakeIds s;
  announcedEarthquakeIds := announcedEarthquakeIds s;
  isDownloading := isDownloading s; showDebug := showDebug s;
  showMobileFilters := showMobileFilters s |}.

Definition setLastUpdated v s := {|
  earthquakes := earthquakes s; filteredEarthquakes := filteredEarthquakes s;
  startDate := startDate s; endDate := endDate s; minMag := minMag s;
  recentCount := recentCount s; isLoading := isLoading s;
  lastUpdated := v;
  previousEarthquakeIds := previousEarthquakeIds s;
  announcedEarthquakeIds := announcedEarthquakeIds s;
  isDownloading := isDownloading s; showDebug := showDebug s;
  showMobileFilters := showMobileFilters s |}.

Definition setPreviousEarthquakeIds v s := {|
  earthquakes := earthquakes s; filteredEarthquakes := filteredEarthquakes s;
  startDate := startDate s; endDate := endDate s; minMag := minMag s;
  recentCount := recentCount s; isLoading := isLoading s;
  lastUpdated := lastUpdated s;
  previousEarthquakeIds := v;
  announcedEarthquakeIds := announcedEarthquakeIds s;
  isDownloading := isDownloading s; showDebug := showDebug s;
  showMobileFilters := showMobileFilters s |}.

Definition setAnnouncedEarthquakeIds v s := {|
  earthquakes := earthquakes s; filteredEarthquakes := filteredEarthquakes s;
  startDate := startDate s; endDate := endDate s; minMag := minMag s;
  recentCount := recentCount s; isLoading := isLoading s;
  lastUpdated := lastUpdated s;
  previousEarthquakeIds := previousEarthquakeIds s;
  announcedEarthquakeIds := v;
  isDownloading := isDownloading s; showDebug := showDebug s;
  showMobileFilters := showMobileFilters s |}.

Definition setIsDownloading v s := {|
  earthquakes := earthquakes s; filteredEarthquakes := filteredEarthquakes s;
  startDate := startDate s; endDate := endDate s; minMag := minMag s;
  recentCount := recentCount s; isLoading := isLoading s;
  lastUpdated := lastUpdated s;
  previousEarthquakeIds := previousEarthquakeIds s;
  announcedEarthquakeIds := announcedEarthquakeIds s;
  isDownloading := v; showDebug := showDebug s;
  showMobileFilters := showMobileFilters s |}.

(** A JSZip archive: entry name to content. *)
Definition Archive := gmap string string.

(** Requests sent to the browser; the audio element and the speech
    synthesis are taken to be there. *)
Inductive Effect :=
  | PlayBeep                                        (* [audioRef.current.play()] *)
  | Speak (message : string)                        (* [speechSynthesis.speak] *)
  | Alert (message : string)                        (* [alert(message)] *)
  | CancelSpeech                                    (* [speechSynthesis.cancel()] *)
  | ConsoleError (message : string)                 (* [console.error] *)
  | Uncaught                                        (* an exception leaving a handler *)
  | SaveBlob (filename mime content : string)       (* download of a text blob *)
  | SaveArchive (filename : string) (zip : gmap string string). (* [saveAs] of the zip *)

(** ** FeedFetcher and NoveltyTracker: [fetchEarthquakes] *)

(** What [await fetch(url)] and [await res.json()] deliver.  The response
    status is carried along; the source never reads it. *)
Inductive Payload :=
  | NoFeatureArray                                  (* [data.features.filter] raises *)
  | FeatureCollection (features : list (option Feature)).

Inductive FetchResult :=
  | NetworkError                                    (* [fetch] rejects *)
  | Response (status : nat) (body : option Payload). (* [None]: [res.json()] rejects *)

(** The admission test of [data.features.filter(...)]. *)
Definition validFeature (f : Feature) : bool :=
  match geometry f with
  | Some g =>
      match coordinates g with
      | Some cs =>
          (length cs =? 3)%nat &&
          match properties f with
          | Some p => truthyZ (time p) && truthyS (id f) && isEthiopiaLocation (place p)
          | None => false
          end
      | None => false
      end
  | None => false
  end.

Definition validFeatures (features : list (option Feature)) : list Feature :=
  List.filter validFeature (omap (fun f => f) features).

(** [set.has(f.id)]; the sets of the component only ever hold strings. *)
Definition Set_has (set : gset string) (x : option string) : bool :=
  match x with
  | Some x => bool_decide (x ∈ set)
  | None => false
  end.

(** [new Set(features.map(f => f.id))] *)
Definition idSet (features : list Feature) : gset string :=
  list_to_set (omap id features).

Definition oneHourAgo (now : Z) : Z := now - 60 * 60 * 1000.

Definition laterThan (bound : Z) (t : option Z) : bool :=
  match t with
  | Some t => bound <? t
  | None => false
  end.

Definition newEarthquakes (now : Z) (validFeatures : list Feature) (s : State)
  : list Feature :=
  List.filter
    (fun f =>
       negb (Set_has (previousEarthquakeIds s) (id f)) &&
       negb (Set_has (announcedEarthquakeIds s) (id f)) &&
       laterThan (oneHourAgo now) (prop time f))
    validFeatures.

(** AlertDispatcher: the text after ["of "], up to the first comma. *)
Definition shortPlace (place : string) : string :=
  let locationName :=
    if Js.includes place "of " then default place (Js.split "of " place !! 1%nat)
    else place in
  if Js.includes locationName "," then default locationName (Js.split "," locationName !! 0%nat)
  else locationName.

Definition speechFor (eq : Feature) : list Effect :=
  let place := Js.or_else (prop place eq) "Unknown location" in
  let mag := Js.or_else ((fun m => toFixed m 1) <$> prop mag eq) "unknown" in
  let locationName := Js.trim (shortPlace place) in
  [ CancelSpeech;
    Speak ("New earthquake detected. Magnitude " +:+ mag +:+ " at " +:+ locationName +:+ ".") ].

Definition nl : string := String "010"%char EmptyString.
Definition dq : string := String "034"%char EmptyString.

Definition headline (latest : Feature) : Effect :=
  let placeName := shortPlace (Js.or_else (prop place latest) "Unknown location") in
  Alert ("🚨 NEW EARTHQUAKE ALERT!" +:+ nl +:+ nl +:+
         "Magnitude: " +:+ default "undefined" ((fun m => toFixed m 1) <$> prop mag latest) +:+ nl +:+
         "Location: " +:+ placeName +:+ nl +:+
         "Time: " +:+ toLocaleString (prop time latest ≫= newDate)).

Definition alertsFor (newEarthquakes : list Feature) : list Effect :=
  match last newEarthquakes with
  | Some latest =>
      PlayBeep :: concat (map speechFor newEarthquakes) ++ [headline latest]
  | None => []
  end.

(** ** FilterEngine: the filter effect *)

(** [eqTime] is [null] or a date, which may be invalid. *)
Definition passesFilters (s : State) (eq : Feature) : bool :=
  match properties eq, geometry eq with
  | Some p, Some _ =>
      let eqTime := if truthyZ (time p) then newDate <$> time p else None in
      match eqTime, mag p with
      | Some eqTime, Some eqMag =>
          let isAfterStart :=
            negb (truthyS (Some (startDate s))) ||
            Date_ge eqTime (Date_parse (startDate s)) in
          let isBeforeEnd :=
            negb (truthyS (Some (endDate s))) ||
            Date_le eqTime (Date_parse (endDate s)) in
          let isMagValid := num_ge eqMag (minMag s) in
          isAfterStart && isBeforeEnd && isMagValid
      | _, _ => false
      end
  | _, _ => false
  end.

(** The effect that follows every change of [earthquakes], [startDate],
    [endDate] or [minMag]. *)
Definition filterEffect (s : State) : State :=
  match earthquakes s with
  | [] => setFilteredEarthquakes [] s
  | _ => setFilteredEarthquakes (List.filter (passesFilters s) (earthquakes s)) s
  end.

(** The recent count's test: the record's date against the local clock
    stepped back one hour. *)
Definition recentAt (clock : Clock) (f : Feature) : bool :=
  truthyZ (prop time f) &&
  Date_gt (prop time f ≫= newDate) (hourBefore (atRecent clock)).

(** The body of the [try] block once the feature array is at hand.
    [closure] is the state of the render that created the callback: the
    two id sets are read from it, everything is written to [s]. *)
Definition ingest (clock : Clock) (features : list (option Feature))
    (closure s : State) : State * list Feature :=
  let validFeatures := validFeatures features in
  let currentIds := idSet validFeatures in
  let newEarthquakes := newEarthquakes (atNovelty clock) validFeatures closure in
  let s :=
    match newEarthquakes with
    | [] => s
    | _ => setAnnouncedEarthquakeIds
             (announcedEarthquakeIds closure ∪ idSet newEarthquakes) s
    end in
  let s := setPreviousEarthquakeIds currentIds s in
  let s := setEarthquakes validFeatures s in
  let recent := List.filter (recentAt clock) validFeatures in
  let s := setRecentCount (length recent) s in
  let s := setLastUpdated (atUpdate clock) s in
  (s, newEarthquakes).

(** The callback from the arrival of the response on, followed by the
    filter effect when the record store has been written.  Returns the new
    state, the records found novel and the requests sent to the browser. *)
Definition settle (closure : State) (clock : Clock) (result : FetchResult)
    (s : State) : State * list Feature * list Effect :=
  match result with
  | Response _ (Some (FeatureCollection features)) =>
      let '(s, novel) := ingest clock features closure s in
      (filterEffect (setIsLoading false s), novel, alertsFor novel)
  | _ =>
      (setIsLoading false s, [], [ConsoleError "Error fetching earthquakes:"])
  end.

(** One polling cycle with nothing in between: the call, and the arrival
    of its response on the state the call left. *)
Definition fetchEarthquakes (clock : Clock) (result : FetchResult) (s : State)
  : State * list Feature * list Effect :=
  let s := setIsLoading true s in
  settle s clock result s.

(** A run of polling cycles, each with its clock readings and fetch
    result; returns the final state and the novel records of every
    cycle. *)
Fixpoint runCycles (cycles : list (Clock * FetchResult)) (s : State)
  : State * list (list Feature) :=
  match cycles with
  | [] => (s, [])
  | (clock, result) :: rest =>
      let '(s', novel, _) := fetchEarthquakes clock result s in
      let '(s'', novels) := runCycles rest s' in
      (s'', novel :: novels)
  end.
(** ** ExportSerializer: [generateKML], [downloadCSV], [downloadKMZ] *)

(** [${x}] for a coordinate read by destructuring: a number, [null], or
    [undefined] when the array is too short. *)
Definition coordText (c : option (option num)) : string :=
  match c with
  | Some (Some x) => num_toString x
  | Some None => "null"
  | None => "undefined"
  end.

(** [${depth?.toFixed(1)}] *)
Definition depthText (c : option (option num)) : string :=
  match c with
  | Some (Some x) => toFixed x 1
  | _ => "undefined"
  end.

Definition kmlHeader : string :=
  Js.template
  [ "<?xml version="; dq; "1.0"; dq; " encoding="; dq; "UTF-8"; dq; "?>";
    nl; "<kml xmlns="; dq; "http://www.opengis.net/kml/2.2"; dq; ">";
    nl; "  <Document>";
    nl; "    <name>Ethiopia Earthquakes</name>";
    nl; "    <Style id="; dq; "earthquakeStyle"; dq; ">";
    nl; "      <IconStyle>";
    nl; "        <scale>0.8</scale>";
    nl; "        <Icon>";
    nl; "          <href>http://maps.google.com/mapfiles/kml/shapes/earthquake.png</href>";
    nl; "        </Icon>";
    nl; "      </IconStyle>";
    nl; "      <LabelStyle>";
    nl; "        <scale>0</scale>";
    nl; "      </LabelStyle>";
    nl; "    </Style>" ].

Definition kmlFooter : string :=
  Js.template
  [ nl; "  </Document>";
    nl; "</kml>" ].

(** The chunks one record appends to [kmlContent]. *)
Definition placemarkChunks (mag place time depth url lon lat : string) : list string :=
  [ nl; "    <Placemark>";
    nl; "      <name>M"; mag; " - "; place; "</name>";
    nl; "      <description>";
    nl; "        <![CDATA[";
    nl; "          <div style="; dq; "padding:10px;"; dq; ">";
    nl; "            <h3>Earthquake: M"; mag; "</h3>";
    nl; "            <p><b>Location:</b> "; place; "</p>";
    nl; "            <p><b>Time:</b> "; toLocaleString (Date_parse time); "</p>";
    nl; "            <p><b>Depth:</b> "; depth; " km</p>";
    nl; "            <p><b>Magnitude:</b> "; mag; "</p>";
    nl; "            <p><a href="; dq; url; dq; " target="; dq; "_blank"; dq; ">View on USGS</a></p>";
    nl; "          </div>";
    nl; "        ]]>";
    nl; "      </description>";
    nl; "      <styleUrl>#earthquakeStyle</styleUrl>";
    nl; "      <Point>";
    nl; "        "; "<coordinates>"; lon; ","; lat; ",0</coordinates>";
    nl; "      </Point>";
    nl; "      <ExtendedData>";
    nl; "        <Data name="; dq; "magnitude"; dq; ">";
    nl; "          <value>"; mag; "</value>";
    nl; "        </Data>";
    nl; "        <Data name="; dq; "depth"; dq; ">";
    nl; "          <value>"; depth; "</value>";
    nl; "        </Data>";
    nl; "        <Data name="; dq; "time"; dq; ">";
    nl; "          <value>"; time; "</value>";
    nl; "        </Data>";
    nl; "      </ExtendedData>";
    nl; "    </Placemark>" ].

Definition kmlMag (eq : Feature) : string :=
  Js.or_else ((fun m => toFixed m 1) <$> prop mag eq) "Unknown".

Definition kmlPlace (eq : Feature) : string :=
  Js.or_else (prop place eq) "Unknown location".

(** [None] when [toISOString] raises: the date is invalid. *)
Definition kmlTime (eq : Feature) : option string :=
  match prop time eq with
  | Some t => if t =? 0 then Some "Unknown" else toISOString <$> newDate t
  | None => Some "Unknown"
  end.

Definition kmlUrl (eq : Feature) : string :=
  Js.or_else (prop url eq) "".

(** The body of the [forEach] callback; [None] when reading
    [eq.geometry.coordinates], destructuring it or formatting the time
    raises. *)
Definition placemark (eq : Feature) : option string :=
  g ← geometry eq;
  cs ← coordinates g;
  time ← kmlTime eq;
  Some (Js.template
          (placemarkChunks (kmlMag eq) (kmlPlace eq) time
             (depthText (cs !! 2%nat)) (kmlUrl eq)
             (coordText (cs !! 0%nat)) (coordText (cs !! 1%nat)))).

Definition generateKML (earthquakes : list Feature) : option string :=
  kmlContent ←
    foldl (fun acc eq => kmlContent ← acc; block ← placemark eq;
                         Some (kmlContent +:+ block))
          (Some kmlHeader) earthquakes;
  Some (kmlContent +:+ kmlFooter).

Definition headers : list string :=
  [ "Earthquake ID";
    "Location/Place";
    "Magnitude";
    "Date & Time";
    "Longitude";
    "Latitude";
    "Depth (km)";
    "USGS URL" ].

(** [x !== null ? x.toFixed(d) : ''] for a destructured coordinate;
    [undefined.toFixed] raises. *)
Definition csvCoord (c : option (option num)) (digits : nat) : option string :=
  match c with
  | Some (Some x) => Some (toFixed x digits)
  | Some None => Some ""
  | None => None
  end.

Definition escapedPlace (eq : Feature) : string :=
  let place := Js.or_else (prop place eq) "Unknown location" in
  if Js.includes place "," then dq +:+ place +:+ dq else place.

(** The eight fields of a record's row. *)
Definition csvFields (eq : Feature) : option (list string) :=
  g ← geometry eq;
  let coords := default [None; None; None] (coordinates g) in
  lon ← csvCoord (coords !! 0%nat) 6;
  lat ← csvCoord (coords !! 1%nat) 6;
  depth ← csvCoord (coords !! 2%nat) 2;
  Some [ Js.or_else (id eq) "";
         escapedPlace eq;
         default "" ((fun m => toFixed m 2) <$> prop mag eq);
         (if truthyZ (prop time eq) then toLocaleString (prop time eq ≫= newDate) else "");
         lon;
         lat;
         depth;
         Js.or_else (prop url eq) "" ].

Definition csvRow (eq : Feature) : option string :=
  Js.join "," <$> csvFields eq.

Definition csvText (rows : list string) : string :=
  Js.join nl (Js.join "," headers :: rows).

(** U+FEFF in UTF-8. *)
Definition BOM : string :=
  String "239"%char (String "187"%char (String "191"%char EmptyString)).

Definition notice : string :=
  "No earthquakes to download for the selected filters.".

Definition downloadCSV (s : State) : State * list Effect :=
  match filteredEarthquakes s with
  | [] => (s, [Alert notice])
  | _ =>
      match mapM csvRow (filteredEarthquakes s) with
      | Some rows =>
          (s, [SaveBlob
                 ("ethiopia_earthquakes_" +:+ startDate s +:+ "_to_" +:+ endDate s +:+ ".csv")
                 "text/csv;charset=utf-8;"
                 (BOM +:+ csvText rows)])
      | None => (s, [Uncaught])
      end
  end.

(** [zipOk] tells whether [zip.generateAsync] resolves. *)
Definition downloadKMZ (zipOk : bool) (s : State) : State * list Effect :=
  match filteredEarthquakes s with
  | [] => (s, [Alert notice])
  | _ =>
      let s := setIsDownloading true s in
      let failure :=
        [ConsoleError "Error creating KMZ:";
         Alert "Error creating KMZ file. Please try again."] in
      match generateKML (filteredEarthquakes s) with
      | Some kmlContent =>
          let zip : gmap string string := <["doc.kml" := kmlContent]> ∅ in
          if zipOk then
            (setIsDownloading false s,
             [SaveArchive
                ("ethiopia_earthquakes_" +:+ startDate s +:+ "_to_" +:+ endDate s +:+ ".kmz")
                zip])
          else (setIsDownloading false s, failure)
      | None => (setIsDownloading false s, failure)
      end
  end.

End Dashboard.


(** ** Reading the exported texts back *)

(** [avoids c s]: the character [c] does not occur in [s]. *)
Fixpoint avoids (c : ascii) (s : string) : bool :=
  match s with
  | EmptyString => true
  | String a s' => negb (Ascii.eqb a c) && avoids c s'
  end.

Definition newline : ascii := "010"%char.
Definition tagOpen : ascii := "<"%char.

(** The lines of a text, separated by line feeds. *)
Fixpoint lines (s : string) : list string :=
  match s with
  | EmptyString => [EmptyString]
  | String c s' =>
      if Ascii.eqb c newline then EmptyString :: lines s'
      else
        match lines s' with
        | l :: ls => String c l :: ls
        | [] => [String c EmptyString]
        end
  end.

(** The number of places of [s] at which [tag] starts. *)
Fixpoint countTag (tag s : string) : nat :=
  (if Js.startsWith s tag then 1 else 0) +
  match s with
  | EmptyString => 0
  | String _ s' => countTag tag s'
  end.

(** The text up to the next ["<"]. *)
Fixpoint untilLt (s : string) : string :=
  match s with
  | EmptyString => EmptyString
  | String c s' => if Ascii.eqb c tagOpen then EmptyString else String c (untilLt s')
  end.

(** The character data that follows each opening [tag] of [s], in order. *)
Fixpoint tagBodies (tag s : string) : list string :=
  (if Js.startsWith s tag then [untilLt (Js.drop (String.length tag) s)] else []) ++
  match s with
  | EmptyString => []
  | String _ s' => tagBodies tag s'
  end.

(** [a] is a proper prefix of [tag]: text appended to [a] could complete
    an occurrence of [tag] that starts in [a]. *)
Definition partialTag (tag a : string) : bool :=
  Js.startsWith tag a && (String.length a <? String.length tag)%nat.

(** No occurrence of [tag] can start in [a] and end beyond it. *)
Fixpoint noStraddle (tag a : string) : bool :=
  match a with
  | EmptyString => true
  | String _ a' => negb (partialTag tag a) && noStraddle tag a'
  end.

(** The formatting functions of the runtime emit digits, signs,
    separators and letters: never a line feed, never a ["<"]. *)
Class JsRuntimeLaws `{JsRuntime} : Prop := {
  toFixed_avoids : forall c x d,
    c = newline \/ c = tagOpen -> avoids c (toFixed x d) = true;
  num_toString_avoids : forall c x,
    c = newline \/ c = tagOpen -> avoids c (num_toString x) = true;
  toISOString_avoids : forall c t,
    c = newline \/ c = tagOpen -> avoids c (toISOString t) = true;
  toLocaleString_avoids : forall c d,
    c = newline \/ c = tagOpen -> avoids c (toLocaleString d) = true;
}.

Section SpecWording.
Context `{JsRuntime}.

(** FilterEngine, in the specification's words: originTime and magnitude
    present, originTime within the bounds that are set, magnitude at least
    the minimum. *)
Definition specIncluded (start stop : string) (minMagnitude : num) (r : Feature) : bool :=
  match prop time r, prop mag r with
  | Some originTime, Some magnitude =>
      (bool_decide (start = EmptyString) ||
       match Date_parse start with Some d => d <=? originTime | None => false end) &&
      (bool_decide (stop = EmptyString) ||
       match Date_parse stop with Some d => originTime <=? d | None => false end) &&
      num_ge magnitude minMagnitude
  | _, _ => false
  end.

(** The records the filter is specified on: they have a geometry, and
    their originTime, when present, is not the zero timestamp, which the
    source takes for absent.  Every admitted record is one
    ([validFeature_regular]). *)
Definition regular (r : Feature) : bool :=
  match geometry r with
  | Some _ => negb (bool_decide (prop time r = Some 0))
  | None => false
  end.

(** The records whose originTime, when present, is a date JavaScript can
    represent. *)
Definition representable (r : Feature) : bool :=
  match prop time r with
  | Some t => inDateRange t
  | None => true
  end.

(** A failed fetch, in the specification's words: transport failure,
    non-success response, or malformed payload. *)
Definition specFailure (result : FetchResult) : bool :=
  match result with
  | NetworkError => true
  | Response status body =>
      negb ((200 <=? status)%nat && (status <=? 299)%nat) ||
      match body with
      | Some (FeatureCollection _) => false
      | _ => true
      end
  end.

(** The fetches on which [fetchEarthquakes] takes its [catch] branch. *)
Definition raises (result : FetchResult) : bool :=
  match result with
  | Response _ (Some (FeatureCollection _)) => false
  | _ => true
  end.

(** The free texts a record contributes to a CSV row and to a Placemark. *)
Definition csvTexts (r : Feature) : list string :=
  [ Js.or_else (id r) ""; Js.or_else (prop place r) "Unknown location";
    Js.or_else (prop url r) "" ].

Definition kmlTexts (r : Feature) : list string :=
  [ kmlPlace r; kmlUrl r ].

(** The coordinate text of a record's Point: longitude, latitude, zero. *)
Definition pointText (r : Feature) : string :=
  match geometry r ≫= coordinates with
  | Some cs => coordText (cs !! 0%nat) +:+ "," +:+ coordText (cs !! 1%nat) +:+ ",0"
  | None => EmptyString
  end.

Definition allAvoid (c : ascii) (texts : list string) : bool :=
  forallb (avoids c) texts.

(** The content of the text file an operation asked to save, if any. *)
Definition savedText (effects : list Effect) : option string :=
  match effects with
  | [SaveBlob _ _ content] => Some content
  | _ => None
  end.

End SpecWording.

(** ** A runtime for the worked examples

    Numbers are integers; a date is printed as [@] followed by its epoch
    milliseconds, and read from that form or from [YYYY-MM-DD]. *)

Module Example.

Definition digit (n : N) : ascii :=
  match n with
  | 0 => "0" | 1 => "1" | 2 => "2" | 3 => "3" | 4 => "4"
  | 5 => "5" | 6 => "6" | 7 => "7" | 8 => "8" | _ => "9"
  end%N%char.

Fixpoint showN (fuel : nat) (n : N) (acc : string) : string :=
  match fuel with
  | O => acc
  | S fuel' =>
      let acc' := String (digit (n mod 10)%N) acc in
      if (n <? 10)%N then acc' else showN fuel' (n / 10)%N acc'
  end.

Definition showZ (x : Z) : string :=
  let n := Z.abs_N x in
  (if x <? 0 then "-" else "") +:+ showN (S (N.size_nat n)) n EmptyString.

Fixpoint zeros (d : nat) : string :=
  match d with
  | O => EmptyString
  | S d' => String "0"%char (zeros d')
  end.

Definition showFixed (x : Z) (d : nat) : string :=
  match d with
  | O => showZ x
  | _ => showZ x +:+ "." +:+ zeros d
  end.

Fixpoint readN (s : string) (acc : N) : option N :=
  match s with
  | EmptyString => Some acc
  | String c s' =>
      let n := N_of_ascii c in
      if ((48 <=? n) && (n <=? 57))%N then readN s' (10 * acc + (n - 48))%N else None
  end.

(** A field of exactly [width] decimal digits. *)
Definition readField (width : nat) (s : string) : option Z :=
  if (String.length s =? width)%nat then Z.of_N <$> readN s 0%N else None.

(** Days from 1970-01-01 to the given day of the proleptic Gregorian
    calendar. *)
Definition daysFromCivil (y m d : Z) : Z :=
  let y := if m <=? 2 then y - 1 else y in
  let era := y / 400 in
  let yoe := y - era * 400 in
  let mp := (m + 9) mod 12 in
  let doy := (153 * mp + 2) / 5 + d - 1 in
  let doe := yoe * 365 + yoe / 4 - yoe / 100 + doy in
  era * 146097 + doe - 719468.

(** Reads [YYYY-MM-DD] (midnight UTC), or [@] followed by epoch
    milliseconds, the form [showDate] prints. *)
Definition readDate (s : string) : option Z :=
  match s with
  | String "@" ms => match ms with EmptyString => None | _ => Z.of_N <$> readN ms 0%N end
  | _ =>
      match Js.split "-" s with
      | [y; m; d] =>
          y ← readField 4 y; m ← readField 2 m; d ← readField 2 d;
          if (1 <=? m) && (m <=? 12) && (1 <=? d) && (d <=? 31)
          then Some (daysFromCivil y m d * 86400000)
          else None
      | _ => None
      end
  end.

Definition showDate (t : Z) : string := "@" +:+ showZ t.

Definition runtime : JsRuntime := {|
  num := Z;
  num_ge a b := b <=? a;
  toFixed := showFixed;
  num_toString := showZ;
  Date_parse := readDate;
  toISOString := showDate;
  toLocaleString d := match d with Some t => showDate t | None => "Invalid Date" end;
  hourBefore t := newDate (t - 3600000);
|}.

#[local] Existing Instance runtime.

Definition record (i place : string) (t : Z) (m : option Z) : Feature := {|
  id := Some i;
  geometry := Some {| coordinates := Some [Some 39; Some 13; Some 10] |};
  properties := Some {| time := Some t; mag := m; place := Some place;
                        url := Some ("https://earthquake.usgs.gov/earthquakes/eventpage/" +:+ i) |};
|}.

(** The clock of the examples (2023-11-14T22:13:20Z), a time forty minutes
    before it and one thirty days before it. *)
Definition now : Z := 1700000000000.
Definition fresh : Z := now - 40 * 60 * 1000.
Definition old : Z := now - 30 * 24 * 60 * 60 * 1000.

(** The readings of a cycle that starts at [t] and whose alert box is
    dismissed five seconds later. *)
Definition readings (t : Z) : Clock :=
  {| atNovelty := t; atRecent := t + 5000; atUpdate := t + 5000 |}.

Definition rA : Feature := record "us6000a" "10 km N of Awash, Ethiopia" old (Some 4).
Definition rB : Feature := record "us6000b" "Afar region, Ethiopia" old None.
Definition rD : Feature := record "us6000d" "52 km NNE of Mekele, Ethiopia" fresh (Some 5).

(** A feed with a [null] entry and a record from across the border. *)
Definition feed : list (option Feature) :=
  [ Some rA; None; Some rB; Some (record "us6000x" "Red Sea, Yemen" fresh (Some 6)); Some rD ].

Definition initial : State := {|
  earthquakes := []; filteredEarthquakes := [];
  startDate := "2000-01-01"; endDate := "2023-11-15"; minMag := 0;
  recentCount := 0; isLoading := false; lastUpdated := now;
  previousEarthquakeIds := ∅; announcedEarthquakeIds := ∅;
  isDownloading := false; showDebug := false; showMobileFilters := false;
|}.

Definition seenABC : State :=
  setPreviousEarthquakeIds {[ "us6000a"; "us6000b"; "us6000c" ]} initial.


(** The state once [feed] has been fetched and filtered. *)
Definition loaded : State :=
  (fetchEarthquakes (readings now) (Response 200 (Some (FeatureCollection feed))) seenABC).1.1.

Definition showing (records : list Feature) : State :=
  setFilteredEarthquakes records initial.

(** A record of the feed whose time is [null]. *)
Definition rNoTime : Feature := {|
  id := Some "us6000t";
  geometry := Some {| coordinates := Some [Some 39; Some 13; Some 10] |};
  properties := Some {| time := None; mag := Some 5; place := Some "Afar, Ethiopia";
                        url := None |};
|}.

(** A place text on two lines, and one that holds markup. *)
Definition rTwoLines : Feature :=
  record "us6000n" ("Afar region" +:+ nl +:+ "Ethiopia") old (Some 4).

Definition rMarkup : Feature :=
  record "us6000m" "<Placemark></Placemark> Afar, Ethiopia" old (Some 4).

(** A record whose time is a number no [Date] can hold. *)
Definition rFar : Feature :=
  record "us6000f" "Afar, Ethiopia" 9000000000000000 (Some 5).

End Example.

(** ** The rest of the component: markers, criteria, events *)

(** Number literals and the tests [getMagnitudeColor] makes. *)
Class JsNumerals `{JsRuntime} := {
  num_of_Z : Z -> num;                      (* an integer literal *)
  num_truthy : num -> bool;                 (* [!!x]: neither zero nor NaN *)
  num_eq : num -> num -> bool;              (* [a === b] *)
}.

(** [>=] is transitive, and false on a number that is neither truthy nor
    zero (NaN). *)
Class JsNumeralLaws `{JsNumerals} : Prop := {
  num_ge_trans : forall a b c,
    num_ge a b = true -> num_ge b c = true -> num_ge a c = true;
  num_ge_nan : forall a b,
    num_truthy a = false -> num_eq a (num_of_Z 0) = false -> num_ge a b = false;
}.

Section Presentation.
Context `{JsNumerals}.

(** [isRecent]: the two-day window of the map markers; [now] is the
    clock at the render. *)
Definition isRecent (now : Z) (time : option Z) : bool :=
  if truthyZ time
  then Date_gt (time ≫= newDate) (newDate (now - 2 * 24 * 60 * 60 * 1000))
  else false.

Definition getMagnitudeColor (mag : option num) : string :=
  match mag with
  | None => "#6c757d"
  | Some mag =>
      if negb (num_truthy mag) && negb (num_eq mag (num_of_Z 0)) then "#6c757d"
      else if num_ge mag (num_of_Z 6) then "#dc3545"
      else if num_ge mag (num_of_Z 5) then "#fd7e14"
      else if num_ge mag (num_of_Z 4) then "#ffc107"
      else "#6c757d"
  end.

(** The colour of a record's marker on the map. *)
Definition markerColor (now : Z) (eq : Feature) : string :=
  if isRecent now (prop time eq) then "#ff4444" else getMagnitudeColor (prop mag eq).

(** [!c] for a destructured coordinate: [null], [undefined], zero and NaN
    are falsy. *)
Definition coordTruthy (c : option (option num)) : bool :=
  match c with
  | Some (Some x) => num_truthy x
  | _ => false
  end.

(** [isNaN(c)]: a number that is neither truthy nor zero; [undefined]
    converts to NaN, [null] to zero. *)
Definition coordIsNaN (c : option (option num)) : bool :=
  match c with
  | Some (Some x) => negb (num_truthy x) && negb (num_eq x (num_of_Z 0))
  | Some None => false
  | None => true
  end.

(** Whether the map draws a marker for a record of the filtered list. *)
Definition hasMarker (eq : Feature) : bool :=
  match geometry eq ≫= coordinates with
  | None => false
  | Some cs =>
      if (length cs <? 3)%nat then false
      else
        let lon := cs !! 0%nat in
        let lat := cs !! 1%nat in
        if negb (coordTruthy lon) || negb (coordTruthy lat) ||
           coordIsNaN lon || coordIsNaN lat
        then false
        else match prop mag eq with
             | None => false
             | Some _ => true
             end
  end.

(** The callback of [filteredEarthquakes.map]: the colour of the record's
    marker, [None] where it returns [null]. *)
Definition marker (now : Z) (eq : Feature) : option string :=
  if hasMarker eq then Some (markerColor now eq) else None.

(** How alarming a magnitude colour is: red, orange, yellow, grey. *)
Definition severity (colour : string) : nat :=
  if String.eqb colour "#dc3545" then 3
  else if String.eqb colour "#fd7e14" then 2
  else if String.eqb colour "#ffc107" then 1
  else 0.

Definition setStartDate v s := {|
  earthquakes := earthquakes s; filteredEarthquakes := filteredEarthquakes s;
  startDate := v; endDate := endDate s; minMag := minMag s;
  recentCount := recentCount s; isLoading := isLoading s;
  lastUpdated := lastUpdated s;
  previousEarthquakeIds := previousEarthquakeIds s;
  announcedEarthquakeIds := announcedEarthquakeIds s;
  isDownloading := isDownloading s; showDebug := showDebug s;
  showMobileFilters := showMobileFilters s |}.

Definition setEndDate v s := {|
  earthquakes := earthquakes s; filteredEarthquakes := filteredEarthquakes s;
  startDate := startDate s; endDate := v; minMag := minMag s;
  recentCount := recentCount s; isLoading := isLoading s;
  lastUpdated := lastUpdated s;
  previousEarthquakeIds := previousEarthquakeIds s;
  announcedEarthquakeIds := announcedEarthquakeIds s;
  isDownloading := isDownloading s; showDebug := showDebug s;
  showMobileFilters := showMobileFilters s |}.

Definition setMinMag v s := {|
  earthquakes := earthquakes s; filteredEarthquakes := filteredEarthquakes s;
  startDate := startDate s; endDate := endDate s; minMag := v;
  recentCount := recentCount s; isLoading := isLoading s;
  lastUpdated := lastUpdated s;
  previousEarthquakeIds := previousEarthquakeIds s;
  announcedEarthquakeIds := announcedEarthquakeIds s;
  isDownloading := isDownloading s; showDebug := showDebug s;
  showMobileFilters := showMobileFilters s |}.

Definition setShowDebug v s := {|
  earthquakes := earthquakes s; filteredEarthquakes := filteredEarthquakes s;
  startDate := startDate s; endDate := endDate s; minMag := minMag s;
  recentCount := recentCount s; isLoading := isLoading s;
  lastUpdated := lastUpdated s;
  previousEarthquakeIds := previousEarthquakeIds s;
  announcedEarthquakeIds := announcedEarthquakeIds s;
  isDownloading := isDownloading s; showDebug := v;
  showMobileFilters := showMobileFilters s |}.

Definition setShowMobileFilters v s := {|
  earthquakes := earthquakes s; filteredEarthquakes := filteredEarthquakes s;
  startDate := startDate s; endDate := endDate s; minMag := minMag s;
  recentCount := recentCount s; isLoading := isLoading s;
  lastUpdated := lastUpdated s;
  previousEarthquakeIds := previousEarthquakeIds s;
  announcedEarthquakeIds := announcedEarthquakeIds s;
  isDownloading := isDownloading s; showDebug := showDebug s;
  showMobileFilters := v |}.

(** [s.slice(0, n)] *)
Fixpoint sliceTo (n : nat) (s : string) : string :=
  match n, s with
  | S n', String c s' => String c (sliceTo n' s')
  | _, _ => EmptyString
  end.

(** [new Date().toISOString().slice(0,10)] *)
Definition today (now : Z) : string := sliceTo 10 (toISOString now).

(** The state the hooks start from. *)
Definition initialState (now : Z) : State := {|
  earthquakes := []; filteredEarthquakes := [];
  startDate := "2000-01-01"; endDate := today now; minMag := num_of_Z 0;
  recentCount := 0; isLoading := false; lastUpdated := now;
  previousEarthquakeIds := ∅; announcedEarthquakeIds := ∅;
  isDownloading := false; showDebug := false; showMobileFilters := false;
|}.

Definition clearFilters (now : Z) (s : State) : State :=
  setMinMag (num_of_Z 0) (setEndDate (today now) (setStartDate "2000-01-01" s)).

(** [narrow] tells whether [window.innerWidth <= 600]. *)
Definition applyFilters (narrow : bool) (s : State) : State :=
  if narrow then setShowMobileFilters false s else s.

(** What can happen to the mounted component.
    - [Call]: the polling effect or its timer calls [fetchEarthquakes],
      which raises the loading flag and waits for the response.
    - [Arrive]: the response of a call arrives and the rest of the
      callback runs; [closure] is the state of the render that created
      that callback.  When the cycle succeeds it stores a new [Set], so
      [fetchEarthquakes] is a new callback and the polling effect runs
      again: its cleanup cancels the speech, and it calls
      [fetchEarthquakes] at once.
    - [parsed] is [parseFloat(e.target.value)], [None] when it is NaN; a
      criteria change is followed by the filter effect. *)
Inductive Event :=
  | Call
  | Arrive (closure : State) (clock : Clock) (result : FetchResult)
  | ChangeStart (value : string)
  | ChangeEnd (value : string)
  | ChangeMinMag (parsed : option num)
  | ClearFilters (now : Z)
  | ApplyFilters (narrow : bool)
  | ToggleDebug
  | ToggleMobileFilters
  | ExportCSV
  | ExportKMZ (zipOk : bool).

Definition step (e : Event) (s : State) : State * list Effect :=
  match e with
  | Call => (setIsLoading true s, [])
  | Arrive closure clock result =>
      let '(s', _, effects) := settle closure clock result s in
      match result with
      | Response _ (Some (FeatureCollection _)) =>
          (setIsLoading true s', effects ++ [CancelSpeech])
      | _ => (s', effects)
      end
  | ChangeStart value => (filterEffect (setStartDate value s), [])
  | ChangeEnd value => (filterEffect (setEndDate value s), [])
  | ChangeMinMag parsed =>
      (filterEffect (setMinMag (default (num_of_Z 0) parsed) s), [])
  | ClearFilters now => (filterEffect (clearFilters now s), [])
  | ApplyFilters narrow => (applyFilters narrow s, [])
  | ToggleDebug => (setShowDebug (negb (showDebug s)) s, [])
  | ToggleMobileFilters => (setShowMobileFilters (negb (showMobileFilters s)) s, [])
  | ExportCSV => downloadCSV s
  | ExportKMZ zipOk => downloadKMZ zipOk s
  end.

(** The state after a sequence of events. *)
Definition after (events : list Event) (s : State) : State :=
  foldl (fun s e => (step e s).1) s events.

(** The requests of one kind among the effects of an operation. *)
Definition beeps (effects : list Effect) : nat :=
  length (List.filter (fun e => match e with PlayBeep => true | _ => false end) effects).

Definition spoken (effects : list Effect) : list string :=
  omap (fun e => match e with Speak m => Some m | _ => None end) effects.

Definition alerted (effects : list Effect) : list string :=
  omap (fun e => match e with Alert m => Some m | _ => None end) effects.

Definition saved (effects : list Effect) : nat :=
  length (List.filter (fun e => match e with
                                | SaveBlob _ _ _ | SaveArchive _ _ => true
                                | _ => false
                                end) effects).

(** The filtered list is the filter of the store under the criteria. *)
Definition filteredInStep (s : State) : Prop :=
  filteredEarthquakes s = List.filter (passesFilters s) (earthquakes s).

End Presentation.

Module Demo.
Import Example.
#[local] Existing Instance runtime.

Definition numerals : JsNumerals := {|
  num_of_Z z := z;
  num_truthy x := negb (x =? 0);
  num_eq := Z.eqb;
|}.

#[local] Existing Instance numerals.

(** The component once mounted: the polling effect has made its first
    call. *)
Definition mounted : State := (step Call (initialState now)).1.

(** The state once the first response has arrived; the polling effect has
    called again. *)
Definition polled : State :=
  (step (Arrive mounted (readings now) (Response 200 (Some (FeatureCollection feed))))
        mounted).1.

(** A session: the first call and its response, the failure of the call
    that follows, changes of the end date and of the minimum magnitude, an
    export, and the timer's call five minutes after the first with its
    response. *)
Definition session : list Event :=
  [ Call;
    Arrive mounted (readings now) (Response 200 (Some (FeatureCollection feed)));
    Arrive polled (readings (now + 60000)) NetworkError;
    ChangeEnd "2023-11-15";
    ChangeMinMag (Some 5);
    ExportKMZ true;
    Call;
    Arrive polled (readings (now + 300000)) (Response 200 (Some (FeatureCollection feed))) ].



(** A record without a geometry, as the feed never stores one. *)
Definition rNoGeometry : Feature := {|
  id := Some "us6000g";
  geometry := None;
  properties := Some {| time := Some old; mag := Some 4; place := Some "Afar, Ethiopia";
                        url := None |};
|}.

(** A record whose coordinates array is too short. *)
Definition rShort : Feature := {|
  id := Some "us6000s";
  geometry := Some {| coordinates := Some [Some 39; Some 13] |};
  properties := Some {| time := Some old; mag := Some 4; place := Some "Afar, Ethiopia";
                        url := None |};
|}.

End Demo.

(** * Properties *)

(** ** Facts about the string primitives *)

Module JsFacts.
Import Js.

Lemma eqb_refl' (a : ascii) : Ascii.eqb a a = true.
Proof. apply Ascii.eqb_eq. reflexivity. Qed.

Lemma startsWith_app (p s : string) : startsWith (p +:+ s) p = true.
Proof.
  induction p as [|a p IH]; simpl.
  - destruct s; reflexivity.
  - rewrite eqb_refl'. exact IH.
Qed.

Lemma startsWith_app_l (s k b : string) :
  startsWith s k = true -> startsWith (s +:+ b) k = true.
Proof.
  revert s. induction k as [|a k IH]; intros s Hs.
  - destruct (s +:+ b); reflexivity.
  - destruct s as [|c s]; simpl in *; [discriminate|].
    destruct (Ascii.eqb a c); [auto | discriminate].
Qed.

Lemma startsWith_drop (s p : string) :
  startsWith s p = true -> s = p +:+ drop (String.length p) s.
Proof.
  revert s. induction p as [|a p IH]; intros s Hs; simpl.
  - reflexivity.
  - destruct s as [|c s]; simpl in Hs; [discriminate|].
    destruct (Ascii.eqb a c) eqn:E; [|discriminate].
    apply Ascii.eqb_eq in E. subst c. simpl. f_equal. apply IH. exact Hs.
Qed.

Lemma includes_here (s k : string) : startsWith s k = true -> includes s k = true.
Proof. intros Hs. destruct s; simpl in *; rewrite Hs; reflexivity. Qed.

Lemma includes_cons (c : ascii) (s k : string) :
  includes s k = true -> includes (String c s) k = true.
Proof. intros Hs. simpl. rewrite Hs. apply orb_true_r. Qed.

Lemma includes_app_r (a s k : string) :
  includes s k = true -> includes (a +:+ s) k = true.
Proof. intros Hs. induction a; simpl; [assumption | rewrite IHa; apply orb_true_r]. Qed.

Lemma includes_app_l (s b k : string) :
  includes s k = true -> includes (s +:+ b) k = true.
Proof.
  induction s as [|c s IH]; intros Hs.
  - cbn [includes] in Hs. rewrite orb_false_r in Hs.
    apply includes_here. apply (startsWith_app_l _ _ b) in Hs. exact Hs.
  - cbn [includes] in Hs. apply orb_true_iff in Hs as [Hs|Hs].
    + apply includes_here. apply (startsWith_app_l _ _ b) in Hs. exact Hs.
    + simpl. rewrite (IH Hs). apply orb_true_r.
Qed.

(** [cut] splits the text around an occurrence of the separator. *)
Lemma cut_spec (sep s before after : string) :
  cut sep s = Some (before, after) -> s = before +:+ sep +:+ after.
Proof.
  revert before. induction s as [|c s IH]; intros before Hc.
  - cbn [cut] in Hc. destruct (startsWith "" sep) eqn:E; [|discriminate].
    injection Hc as <- <-. simpl. apply startsWith_drop. exact E.
  - cbn [cut] in Hc.
    destruct (startsWith (String c s) sep) eqn:E.
    + injection Hc as <- <-. simpl. apply (startsWith_drop _ _ E).
    + destruct (cut sep s) as [[b a]|] eqn:Ec; [|discriminate].
      injection Hc as <- <-. simpl. f_equal. apply IH. reflexivity.
Qed.

Lemma cut_includes (sep s : string) :
  includes s sep = true -> is_Some (cut sep s).
Proof.
  induction s as [|c s IH]; intros Hs.
  - cbn [includes cut] in *. rewrite orb_false_r in Hs. rewrite Hs. eauto.
  - cbn [includes cut] in *.
    destruct (startsWith (String c s) sep); [eauto|].
    simpl in Hs. destruct (IH Hs) as [[b a] ->]. eauto.
Qed.

Lemma length_app (a b : string) :
  String.length (a +:+ b) = (String.length a + String.length b)%nat.
Proof. induction a; simpl; auto. Qed.

Lemma cut_shorter (sep s before after : string) :
  sep <> EmptyString -> cut sep s = Some (before, after) ->
  (String.length after < String.length s)%nat.
Proof.
  intros Hsep Hc. apply cut_spec in Hc. subst s.
  rewrite !length_app. destruct sep; [congruence | simpl; lia].
Qed.

(** The fuel of [split] is never exhausted before the text is. *)
Lemma split_fuel_enough (sep : string) :
  sep <> EmptyString ->
  forall n s, (String.length s <= n)%nat -> split_fuel n sep s = split sep s.
Proof.
  intros Hsep. unfold split.
  induction n as [n IH] using lt_wf_ind. intros s Hn.
  destruct n as [|n].
  - replace (String.length s) with 0%nat by lia. reflexivity.
  - destruct (String.length s) as [|m] eqn:Em.
    + simpl. destruct (cut sep s) as [[b a]|] eqn:Ec; [|reflexivity].
      apply (cut_shorter _ _ _ _ Hsep) in Ec. lia.
    + simpl. destruct (cut sep s) as [[b a]|] eqn:Ec; [|reflexivity].
      pose proof (cut_shorter _ _ _ _ Hsep Ec) as Hlt. f_equal.
      rewrite (IH n) by lia. rewrite (IH m) by lia. reflexivity.
Qed.

(** The unfolding of [split] the source relies on. *)
Lemma split_cut (sep s : string) :
  sep <> EmptyString ->
  split sep s =
    match cut sep s with
    | Some (before, after) => before :: split sep after
    | None => [s]
    end.
Proof.
  intros Hsep. unfold split at 1.
  destruct (String.length s) as [|m] eqn:Em.
  - simpl. destruct (cut sep s) as [[b a]|] eqn:Ec; [|reflexivity].
    apply (cut_shorter _ _ _ _ Hsep) in Ec. lia.
  - simpl. destruct (cut sep s) as [[b a]|] eqn:Ec; [|reflexivity].
    pose proof (cut_shorter _ _ _ _ Hsep Ec) as Hlt.
    rewrite split_fuel_enough by (auto; lia). reflexivity.
Qed.

Lemma split_head (sep s : string) :
  sep <> EmptyString -> exists x l, split sep s = x :: l /\
    (x = s \/ exists after, s = x +:+ sep +:+ after).
Proof.
  intros Hsep. rewrite split_cut by assumption.
  destruct (cut sep s) as [[b a]|] eqn:Ec.
  - exists b, (split sep a). split; [reflexivity|]. right. exists a. apply cut_spec. exact Ec.
  - exists s, []. auto.
Qed.

(** [s.split(sep)[1]] exists once [s.includes(sep)]. *)
Lemma split_second_is_Some (sep s : string) :
  sep <> EmptyString -> includes s sep = true -> is_Some (split sep s !! 1%nat).
Proof.
  intros Hsep Hs. rewrite split_cut by assumption.
  destruct (cut_includes _ _ Hs) as [[b a] ->].
  destruct (split_head sep a Hsep) as (x & l & -> & _). simpl. eauto.
Qed.

(** ... and is a piece of [s]. *)
Lemma split_second_substring (sep s seg k : string) :
  sep <> EmptyString -> split sep s !! 1%nat = Some seg ->
  includes seg k = true -> includes s k = true.
Proof.
  intros Hsep Hseg Hk. rewrite split_cut in Hseg by assumption.
  destruct (cut sep s) as [[b a]|] eqn:Ec; [|discriminate].
  apply cut_spec in Ec. subst s.
  destruct (split_head sep a Hsep) as (x & l & Hx & Hor). rewrite Hx in Hseg.
  simpl in Hseg. injection Hseg as ->.
  do 2 apply includes_app_r.
  destruct Hor as [->|[a' ->]]; [assumption|]. apply includes_app_l. assumption.
Qed.

Lemma afterFirst_substring (sep s k : string) :
  includes (afterFirst sep s) k = true -> includes s k = true.
Proof.
  unfold afterFirst. destruct (cut sep s) as [[b a]|] eqn:Ec.
  - intros Hk. apply cut_spec in Ec. subst s. do 2 apply includes_app_r. exact Hk.
  - destruct s; simpl; intros Hk; rewrite ?orb_false_r in Hk.
    + rewrite Hk. reflexivity.
    + destruct k; simpl in Hk; [|discriminate]. reflexivity.
Qed.

End JsFacts.

(** ** GeoClassifier *)

Section Classifier.
Import Js JsFacts.

Lemma hasKeyword_mono (f : string -> string) (s : string) :
  (forall k, includes (f s) k = true -> includes s k = true) ->
  hasKeyword s = false -> hasKeyword (f s) = false.
Proof.
  unfold hasKeyword. intros Hf Hs.
  apply not_true_is_false. intros Hk.
  apply existsb_exists in Hk as (k & Hin & Hk).
  assert (existsb (fun keyword => includes s keyword) ethiopiaKeywords = true) as Hs'.
  { apply existsb_exists. exists k. auto. }
  congruence.
Qed.

Lemma of_nonempty : "of " <> EmptyString.
Proof. discriminate. Qed.

(** The directional pass tests a piece of a text the inclusion pass has
    already tested: it never accepts anything. *)
Lemma of_pass_redundant (place : string) :
  isEthiopiaLocation (Some place) =
    match place with
    | EmptyString => false
    | _ => negb (excluded (toLowerCase place)) && hasKeyword (toLowerCase place)
    end.
Proof.
  destruct place as [|c place]; [reflexivity|].
  unfold isEthiopiaLocation.
  destruct (excluded _); [reflexivity|].
  destruct (hasKeyword (toLowerCase _)) eqn:Hk; [reflexivity|].
  destruct (includes _ "of "); [|reflexivity].
  unfold afterOf. destruct (split "of " _ !! 1%nat) as [seg|] eqn:Hseg; [|reflexivity].
  simpl. apply not_true_is_false. intros Hseg'.
  apply existsb_exists in Hseg' as (k & Hin & Hk').
  apply (split_second_substring _ _ _ _ of_nonempty Hseg) in Hk'.
  assert (hasKeyword (toLowerCase (String c place)) = true) as Habs.
  { apply existsb_exists. exists k. auto. }
  congruence.
Qed.

(** C3: the classifier on the five sample texts.  The third text is
    rejected: the inclusion list spells the city ["mekelle"], and the
    ["of "] pass re-tests a piece of the same text. *)
Theorem classify_samples :
  isEthiopiaLocation (Some "Addis Ababa, Ethiopia") = true /\
  isEthiopiaLocation (Some "Red Sea, Yemen") = false /\
  isEthiopiaLocation (Some "52 km NNE of Mekele") = false /\
  isEthiopiaLocation (Some "Khartoum, Sudan") = false /\
  isEthiopiaLocation (Some "") = false /\
  isEthiopiaLocation None = false.
Proof. repeat split; vm_compute; reflexivity. Qed.

(** C4: a text that names an excluded neighbouring region and does not
    name the target country is rejected, whatever inclusion keywords it
    also holds. *)
Theorem exclusion_precedence (place country : string) :
  In country excludeCountries ->
  includes (toLowerCase place) country = true ->
  includes (toLowerCase place) "ethiopia" = false ->
  isEthiopiaLocation (Some place) = false.
Proof.
  intros Hin Hc He. rewrite of_pass_redundant.
  destruct place as [|c rest]; [reflexivity|].
  assert (excluded (toLowerCase (String c rest)) = true) as ->; [|reflexivity].
  apply existsb_exists. exists country. split; [assumption|].
  rewrite Hc, He. reflexivity.
Qed.

Lemma exclusion_precedence_witness :
  In "kenya" excludeCountries /\
  includes (toLowerCase "Afar border, Kenya") "kenya" = true /\
  hasKeyword (toLowerCase "Afar border, Kenya") = true /\
  isEthiopiaLocation (Some "Afar border, Kenya") = false.
Proof.
  split; [simpl; tauto|]. split; [reflexivity|]. split; [reflexivity|].
  apply (exclusion_precedence "Afar border, Kenya" "kenya");
    [simpl; tauto | reflexivity | reflexivity].
Defined.

(** C5: for a text that neither the exclusion pass nor the inclusion pass
    decides, the result is that of the inclusion pass on the text after the
    first ["of "] when there is one, and [false] otherwise. *)
Theorem directional_pass (place : string) :
  excluded (toLowerCase place) = false ->
  hasKeyword (toLowerCase place) = false ->
  isEthiopiaLocation (Some place) =
    if includes (toLowerCase place) "of "
    then hasKeyword (afterFirst "of " (toLowerCase place))
    else false.
Proof.
  intros Hx Hk. rewrite of_pass_redundant.
  rewrite (hasKeyword_mono (afterFirst "of ") _ (afterFirst_substring _ _) Hk).
  rewrite Hx, Hk. destruct place; destruct (includes _ _); reflexivity.
Qed.

Lemma directional_pass_witness :
  includes (toLowerCase "52 km NNE of Mekele") "of " = true /\
  afterFirst "of " (toLowerCase "52 km NNE of Mekele") = "mekele" /\
  isEthiopiaLocation (Some "52 km NNE of Mekele") =
    hasKeyword (afterFirst "of " (toLowerCase "52 km NNE of Mekele")).
Proof.
  split; [reflexivity|]. split; [reflexivity|].
  apply (directional_pass "52 km NNE of Mekele"); reflexivity.
Defined.

End Classifier.

(** ** NoveltyTracker *)

Section Novelty.
Context `{JsRuntime}.

Lemma filter_none {A} (p : A -> bool) (l : list A) :
  (forall x, In x l -> p x = false) -> List.filter p l = [].
Proof.
  induction l as [|x l IH]; intros Hp; [reflexivity|].
  simpl. rewrite (Hp x) by (left; reflexivity).
  apply IH. intros y Hy. apply Hp. right. exact Hy.
Qed.

Lemma validFeatures_In (features : list (option Feature)) (f : Feature) :
  In f (validFeatures features) -> validFeature f = true.
Proof. unfold validFeatures. intros Hf. apply filter_In in Hf. tauto. Qed.

Lemma validFeature_id (f : Feature) :
  validFeature f = true -> exists i, id f = Some i.
Proof.
  unfold validFeature. destruct (geometry f) as [g|]; [|discriminate].
  destruct (coordinates g); [|discriminate].
  destruct (properties f); [|intros Hv; rewrite andb_false_r in Hv; discriminate].
  intros Hv. destruct (id f) as [i|]; [eauto|].
  simpl in Hv. rewrite !andb_false_r in Hv. discriminate.
Qed.

Lemma idSet_intro (l : list Feature) (f : Feature) (i : string) :
  In f l -> id f = Some i -> i ∈ idSet l.
Proof.
  intros Hf Hi. unfold idSet. apply elem_of_list_to_set.
  apply list_elem_of_omap. exists f. split; [apply list_elem_of_In|]; assumption.
Qed.

Lemma idSet_elim (l : list Feature) (i : string) :
  i ∈ idSet l -> exists f, In f l /\ id f = Some i.
Proof.
  unfold idSet. intros Hi. apply elem_of_list_to_set in Hi.
  apply list_elem_of_omap in Hi as (f & Hf & Hi).
  exists f. split; [apply list_elem_of_In|]; assumption.
Qed.

Lemma filterEffect_announced (s : State) :
  announcedEarthquakeIds (filterEffect s) = announcedEarthquakeIds s.
Proof. unfold filterEffect. destruct (earthquakes s); reflexivity. Qed.

Lemma filterEffect_previous (s : State) :
  previousEarthquakeIds (filterEffect s) = previousEarthquakeIds s.
Proof. unfold filterEffect. destruct (earthquakes s); reflexivity. Qed.

Lemma filterEffect_earthquakes (s : State) :
  earthquakes (filterEffect s) = earthquakes s.
Proof. unfold filterEffect. destruct (earthquakes s) eqn:E; simpl; congruence. Qed.

(** What the arrival of a feature array does to the novelty state,
    whatever state the callback closed over. *)
Lemma settle_success (closure : State) (clock : Clock) (status : nat)
    (features : list (option Feature)) (s : State) :
  let valid := validFeatures features in
  let novel := newEarthquakes (atNovelty clock) valid closure in
  let r := settle closure clock (Response status (Some (FeatureCollection features))) s in
  r.1.2 = novel /\
  previousEarthquakeIds r.1.1 = idSet valid /\
  earthquakes r.1.1 = valid /\
  announcedEarthquakeIds r.1.1 =
    match novel with
    | [] => announcedEarthquakeIds s
    | _ => announcedEarthquakeIds closure ∪ idSet novel
    end.
Proof.
  unfold settle, ingest. cbn zeta. cbn beta iota. cbn [fst snd].
  rewrite filterEffect_previous, filterEffect_earthquakes, filterEffect_announced.
  destruct (newEarthquakes (atNovelty clock) (validFeatures features) closure); auto.
Qed.

Lemma settle_failure (closure : State) (clock : Clock) (result : FetchResult) (s : State) :
  raises result = true ->
  settle closure clock result s =
    (setIsLoading false s, [], [ConsoleError "Error fetching earthquakes:"]).
Proof.
  destruct result as [|status [[|features]|]]; try discriminate; reflexivity.
Qed.

(** What a cycle that reaches the feature array does to the novelty state. *)
Lemma fetch_success (clock : Clock) (status : nat) (features : list (option Feature))
    (s : State) :
  let valid := validFeatures features in
  let novel := newEarthquakes (atNovelty clock) valid s in
  let r := fetchEarthquakes clock (Response status (Some (FeatureCollection features))) s in
  r.1.2 = novel /\
  previousEarthquakeIds r.1.1 = idSet valid /\
  earthquakes r.1.1 = valid /\
  announcedEarthquakeIds r.1.1 =
    match novel with
    | [] => announcedEarthquakeIds s
    | _ => announcedEarthquakeIds s ∪ idSet novel
    end.
Proof.
  exact (settle_success (setIsLoading true s) clock status features (setIsLoading true s)).
Qed.

Lemma fetch_failure (clock : Clock) (result : FetchResult) (s : State) :
  raises result = true ->
  fetchEarthquakes clock result s =
    (setIsLoading false s, [], [ConsoleError "Error fetching earthquakes:"]).
Proof.
  destruct result as [|status [[|features]|]]; try discriminate; reflexivity.
Qed.

Lemma newEarthquakes_In (now : Z) (valid : list Feature) (s : State) (f : Feature) :
  In f (newEarthquakes now valid s) ->
  In f valid /\
  Set_has (previousEarthquakeIds s) (id f) = false /\
  Set_has (announcedEarthquakeIds s) (id f) = false /\
  laterThan (oneHourAgo now) (prop time f) = true.
Proof.
  unfold newEarthquakes. intros Hf. apply filter_In in Hf as [Hf Hp].
  apply andb_true_iff in Hp as [Hp Ht]. apply andb_true_iff in Hp as [Hp Ha].
  apply negb_true_iff in Hp, Ha. auto.
Qed.

Lemma Set_has_true (set : gset string) (i : string) :
  i ∈ set -> Set_has set (Some i) = true.
Proof. intros Hi. simpl. apply bool_decide_eq_true. exact Hi. Qed.

Lemma Set_has_false (set : gset string) (i : string) :
  i ∉ set -> Set_has set (Some i) = false.
Proof. intros Hi. simpl. apply bool_decide_eq_false. exact Hi. Qed.

(** The freshness test is strict: a record exactly one hour old is not
    fresh. *)
Lemma laterThan_strict (now : Z) :
  laterThan (oneHourAgo now) (Some (now - 3600000)) = false /\
  laterThan (oneHourAgo now) (Some (now - 3599999)) = true.
Proof. unfold laterThan, oneHourAgo. split; [apply Z.ltb_ge | apply Z.ltb_lt]; lia. Qed.

(** A cycle never shrinks the announced set. *)
Lemma fetch_announced_grows (clock : Clock) (result : FetchResult) (s : State) :
  announcedEarthquakeIds s ⊆
  announcedEarthquakeIds (fetchEarthquakes clock result s).1.1.
Proof.
  destruct (raises result) eqn:Hr.
  - rewrite fetch_failure by assumption. reflexivity.
  - destruct result as [|status [[|features]|]]; try discriminate.
    destruct (fetch_success clock status features s) as (_ & _ & _ & ->).
    destruct (newEarthquakes _ _ _); set_solver.
Qed.


(** C1: from [seenLastCycle = {A,B,C}] and [announced = {}], a fetch that
    delivers records with ids [{A,B,D}], those of id [D] less than an hour
    old, reports exactly the records of id [D] as novel; afterwards [D] is
    announced and [seenLastCycle = {A,B,D}]; the same fetch again reports
    nothing. *)
Theorem novelty_transition
    (A B C D : string) (clock clock' : Clock) (status status' : nat)
    (features : list (option Feature)) (s : State) :
  NoDup [A; B; C; D] ->
  previousEarthquakeIds s = {[A; B; C]} ->
  announcedEarthquakeIds s = ∅ ->
  idSet (validFeatures features) = {[A; B; D]} ->
  (forall f, In f (validFeatures features) -> id f = Some D ->
             laterThan (oneHourAgo (atNovelty clock)) (prop time f) = true) ->
  let first := fetchEarthquakes clock (Response status (Some (FeatureCollection features))) s in
  let second := fetchEarthquakes clock' (Response status' (Some (FeatureCollection features))) first.1.1 in
  first.1.2 = List.filter (fun f => bool_decide (id f = Some D)) (validFeatures features) /\
  idSet first.1.2 = {[D]} /\
  {[D]} ⊆ announcedEarthquakeIds first.1.1 /\
  previousEarthquakeIds first.1.1 = {[A; B; D]} /\
  second.1.2 = [].
Proof.
  intros Hnd Hprev Hann Hids Htime first second.
  assert (D <> A /\ D <> B /\ D <> C) as (HA & HB & HC).
  { apply NoDup_cons in Hnd as [HA Hnd]. apply NoDup_cons in Hnd as [HB Hnd].
    apply NoDup_cons in Hnd as [HC _]. set_solver. }
  clear Hnd. subst second.
  pose proof (fetch_success clock status features s) as Hfirst.
  cbn zeta in Hfirst. fold first in Hfirst.
  pose proof (fetch_success clock' status' features first.1.1) as Hsecond.
  cbn zeta in Hsecond. destruct Hsecond as [Hn' _]. rewrite Hn'. clear Hn'.
  clearbody first. destruct first as [[s1 novel1] effects1].
  cbn [fst snd] in *. destruct Hfirst as (Hn & Hp & _ & Ha).
  assert (novel1 = List.filter (fun f => bool_decide (id f = Some D))
                     (validFeatures features)) as Hnovel.
  { rewrite Hn. unfold newEarthquakes. apply filter_ext_in. intros f Hf.
    destruct (validFeature_id f (validFeatures_In _ _ Hf)) as [i Hi].
    pose proof (idSet_intro _ _ _ Hf Hi) as Hin. rewrite Hids in Hin.
    rewrite Hprev, Hann, Hi.
    destruct (decide (i = D)) as [->|Hne].
    - rewrite Set_has_false by set_solver. rewrite Set_has_false by set_solver.
      rewrite (Htime f Hf Hi). rewrite bool_decide_eq_true_2 by reflexivity. reflexivity.
    - rewrite Set_has_true by set_solver.
      rewrite bool_decide_eq_false_2 by congruence. reflexivity. }
  assert (idSet novel1 = {[D]}) as Hset.
  { apply set_eq. intros i. rewrite elem_of_singleton. split.
    - intros Hi. apply idSet_elim in Hi as (f & Hf & Hi).
      rewrite Hnovel in Hf. apply filter_In in Hf as [_ Hf].
      apply bool_decide_eq_true in Hf. congruence.
    - intros ->. assert (D ∈ idSet (validFeatures features)) as HD by set_solver.
      apply idSet_elim in HD as (f & Hf & Hi).
      apply (idSet_intro _ f); [|assumption].
      rewrite Hnovel. apply filter_In. split; [assumption|].
      apply bool_decide_eq_true. assumption. }
  split; [exact Hnovel|]. split; [exact Hset|].
  split.
  { rewrite Ha, <- Hn. destruct novel1 as [|f l].
    - exfalso. assert (D ∈ idSet (@nil Feature)) as HD by (rewrite Hset; set_solver).
      apply idSet_elim in HD as (f & [] & _).
    - rewrite Hset. set_solver. }
  split; [rewrite Hp; exact Hids|].
  unfold newEarthquakes. rewrite Hp.
  apply filter_none. intros f Hf.
  destruct (validFeature_id f (validFeatures_In _ _ Hf)) as [i Hi].
  rewrite Hi, (Set_has_true _ _ (idSet_intro _ _ _ Hf Hi)). reflexivity.
Qed.

End Novelty.

(** ** The announced set over a run of cycles *)

Section Runs.
Context `{JsRuntime}.

Lemma runCycles_cons (clock : Clock) (result : FetchResult)
    (rest : list (Clock * FetchResult)) (s : State) :
  let r := fetchEarthquakes clock result s in
  runCycles ((clock, result) :: rest) s =
    ((runCycles rest r.1.1).1, r.1.2 :: (runCycles rest r.1.1).2).
Proof.
  simpl. destruct (fetchEarthquakes clock result s) as [[s' novel] eff].
  simpl. destruct (runCycles rest s'); reflexivity.
Qed.


(** Hence the announced set of a run contains the one it started from. *)
Lemma announced_superset (cycles : list (Clock * FetchResult)) (s : State) :
  announcedEarthquakeIds s ⊆ announcedEarthquakeIds (runCycles cycles s).1.
Proof.
  revert s. induction cycles as [|[clock result] rest IH]; intros s; [reflexivity|].
  rewrite runCycles_cons. cbn zeta. cbn [fst].
  etransitivity; [apply (fetch_announced_grows clock result)|apply IH].
Qed.

(** The record store only ever holds admitted records. *)
Lemma store_admitted (clock : Clock) (result : FetchResult) (s : State) :
  Forall (fun r => validFeature r = true) (earthquakes s) ->
  Forall (fun r => validFeature r = true) (earthquakes (fetchEarthquakes clock result s).1.1).
Proof.
  intros Hs. destruct (raises result) eqn:Hr.
  - rewrite fetch_failure by assumption. exact Hs.
  - destruct result as [|status [[|features]|]]; try discriminate.
    destruct (fetch_success clock status features s) as (_ & _ & -> & _).
    apply List.Forall_forall. intros r Hr'.
    exact (validFeatures_In _ _ Hr').
Qed.

(** C9, as the code has it: when [fetch] rejects, the body is not JSON, or
    the payload holds no feature array, whatever the response status, the
    cycle changes nothing but the loading flag, which it clears, reports
    nothing as novel, and the next cycle runs as it would have from the
    state before. *)
Theorem failure_recovered (clock : Clock) (result : FetchResult) (s : State) :
  raises result = true ->
  let r := fetchEarthquakes clock result s in
  r.1.1 = setIsLoading false s /\
  earthquakes r.1.1 = earthquakes s /\
  filteredEarthquakes r.1.1 = filteredEarthquakes s /\
  previousEarthquakeIds r.1.1 = previousEarthquakeIds s /\
  announcedEarthquakeIds r.1.1 = announcedEarthquakeIds s /\
  isLoading r.1.1 = false /\
  r.1.2 = [] /\
  forall clock' result',
    fetchEarthquakes clock' result' r.1.1 = fetchEarthquakes clock' result' s.
Proof.
  intros Hr. cbn zeta. rewrite fetch_failure by assumption. cbn [fst snd].
  repeat split; reflexivity.
Qed.

End Runs.

(** ** FilterEngine *)

Section Filter.
Context `{JsRuntime}.

Lemma validFeature_regular (r : Feature) :
  validFeature r = true -> regular r = true.
Proof.
  unfold validFeature, regular, prop.
  destruct (geometry r) as [g|]; [|discriminate].
  destruct (coordinates g); [|discriminate].
  destruct (properties r) as [p|]; [|intros Hv; rewrite andb_false_r in Hv; discriminate].
  intros Hv. apply andb_true_iff in Hv as [_ Hv].
  apply andb_true_iff in Hv as [Hv _]. apply andb_true_iff in Hv as [Ht _].
  simpl. destruct (time p) as [t|]; [|discriminate].
  simpl in Ht. apply negb_true_iff, Z.eqb_neq in Ht.
  rewrite bool_decide_eq_false_2; [reflexivity | congruence].
Qed.

Lemma Date_ge_valid (t : Z) (d : option Z) :
  Date_ge (Some t) d = match d with Some d => d <=? t | None => false end.
Proof. destruct d; reflexivity. Qed.

Lemma Date_le_valid (t : Z) (d : option Z) :
  Date_le (Some t) d = match d with Some d => t <=? d | None => false end.
Proof. destruct d; reflexivity. Qed.

Lemma passesFilters_spec (s : State) (r : Feature) :
  regular r = true -> representable r = true ->
  passesFilters s r = specIncluded (startDate s) (endDate s) (minMag s) r.
Proof.
  unfold regular, representable, passesFilters, specIncluded, prop.
  destruct (geometry r) as [g|]; [|discriminate].
  destruct (properties r) as [p|]; [|reflexivity].
  simpl. intros Hr Hrange. apply negb_true_iff, bool_decide_eq_false in Hr.
  destruct (time p) as [t|]; [|reflexivity].
  assert ((t =? 0) = false) as Ht by (apply Z.eqb_neq; congruence).
  simpl. rewrite Ht. simpl.
  destruct (mag p) as [m|]; [|reflexivity].
  unfold newDate. rewrite Hrange, Date_ge_valid, Date_le_valid.
  destruct (startDate s), (endDate s); reflexivity.
Qed.

Lemma passesFilters_mag (s : State) (r : Feature) :
  passesFilters s r = true -> prop mag r <> None.
Proof.
  unfold passesFilters, prop. destruct (properties r) as [p|]; [|discriminate].
  destruct (geometry r); [|discriminate]. simpl.
  destruct (if truthyZ (time p) then newDate <$> time p else None); [|discriminate].
  destruct (mag p); [discriminate|discriminate].
Qed.

(** C6, as the code has it: on a list of records that have a geometry, no
    zero timestamp (every admitted record is such) and a time that is a
    date JavaScript can represent, the filter keeps, in order, exactly the
    records the specification's predicate selects: originTime and magnitude
    present, originTime within the bounds that are set, magnitude at least
    the minimum.  It leaves the record store as it was, and no record
    without magnitude gets through, whatever the date range. *)
Theorem filter_contract (s : State) :
  Forall (fun r => regular r = true) (earthquakes s) ->
  Forall (fun r => representable r = true) (earthquakes s) ->
  filteredEarthquakes (filterEffect s) =
    List.filter (specIncluded (startDate s) (endDate s) (minMag s)) (earthquakes s) /\
  earthquakes (filterEffect s) = earthquakes s /\
  forall r, prop mag r = None -> ~ In r (filteredEarthquakes (filterEffect s)).
Proof.
  intros Hs Hrange.
  assert (filteredEarthquakes (filterEffect s) =
          List.filter (passesFilters s) (earthquakes s)) as Hcode.
  { unfold filterEffect. destruct (earthquakes s) eqn:E; reflexivity. }
  split; [|split].
  - rewrite Hcode. apply filter_ext_in. intros r Hr.
    rewrite List.Forall_forall in Hs, Hrange. apply passesFilters_spec; auto.
  - apply filterEffect_earthquakes.
  - intros r Hm Hr. rewrite Hcode in Hr. apply filter_In in Hr as [_ Hr].
    exact (passesFilters_mag s r Hr Hm).
Qed.

(** The filter is idempotent: filtering the filtered list changes nothing. *)
Lemma filter_idempotent (s : State) :
  List.filter (passesFilters s) (List.filter (passesFilters s) (earthquakes s)) =
  List.filter (passesFilters s) (earthquakes s).
Proof.
  induction (earthquakes s) as [|r l IH]; [reflexivity|].
  simpl. destruct (passesFilters s r) eqn:E; [|exact IH].
  simpl. rewrite E, IH. reflexivity.
Qed.

End Filter.

(** ** Export refusal *)

Section Refusal.
Context `{JsRuntime}.

(** C10: with nothing to export, either download issues the notice and
    nothing else, and returns the state it was given. *)
Theorem empty_export_refused (s : State) (zipOk : bool) :
  filteredEarthquakes s = [] ->
  downloadCSV s = (s, [Alert "No earthquakes to download for the selected filters."]) /\
  downloadKMZ zipOk s = (s, [Alert "No earthquakes to download for the selected filters."]).
Proof.
  intros Hs. unfold downloadCSV, downloadKMZ. rewrite Hs. split; reflexivity.
Qed.

End Refusal.

(** ** Reading texts back: lines and tags *)

Module ReadFacts.
Import Js JsFacts.

Lemma app_assoc (a b c : string) : (a +:+ b) +:+ c = a +:+ (b +:+ c).
Proof. induction a as [|x a IH]; simpl; [reflexivity | rewrite IH; reflexivity]. Qed.

Lemma app_nil_r (a : string) : a +:+ "" = a.
Proof. induction a as [|x a IH]; simpl; [reflexivity | rewrite IH; reflexivity]. Qed.

Lemma template_app (chunks : list string) (s : string) :
  template chunks +:+ s = fold_right String.append s chunks.
Proof.
  induction chunks as [|c chunks IH]; simpl; [reflexivity|].
  rewrite app_assoc, IH. reflexivity.
Qed.

Lemma avoids_app (c : ascii) (a b : string) :
  avoids c (a +:+ b) = avoids c a && avoids c b.
Proof.
  induction a as [|x a IH]; simpl; [reflexivity|].
  rewrite IH. apply andb_assoc.
Qed.

Lemma avoids_join (c : ascii) (sep : string) (l : list string) :
  avoids c sep = true -> forallb (avoids c) l = true -> avoids c (join sep l) = true.
Proof.
  intros Hsep. induction l as [|x l IH]; intros Hl; [reflexivity|].
  simpl in Hl. apply andb_true_iff in Hl as [Hx Hl].
  destruct l as [|y l]; [exact Hx|].
  change (join sep (x :: y :: l)) with (x +:+ sep +:+ join sep (y :: l)).
  rewrite !avoids_app, Hx, Hsep, (IH Hl). reflexivity.
Qed.

(** *** Lines *)

Lemma lines_nonempty (s : string) : lines s <> [].
Proof.
  induction s as [|c s IH]; simpl; [discriminate|].
  destruct (Ascii.eqb c newline); [discriminate|].
  destruct (lines s); discriminate.
Qed.

Lemma lines_one (a : string) : avoids newline a = true -> lines a = [a].
Proof.
  induction a as [|c a IH]; intros Ha; [reflexivity|].
  simpl in Ha. apply andb_true_iff in Ha as [Hc Ha]. apply negb_true_iff in Hc.
  simpl. rewrite Hc, (IH Ha). reflexivity.
Qed.

Lemma lines_app (a s : string) :
  avoids newline a = true -> lines (a +:+ nl +:+ s) = a :: lines s.
Proof.
  induction a as [|c a IH]; intros Ha; [reflexivity|].
  simpl in Ha. apply andb_true_iff in Ha as [Hc Ha]. apply negb_true_iff in Hc.
  cbn [String.append lines]. rewrite Hc, (IH Ha). reflexivity.
Qed.

Lemma lines_join (x : string) (l : list string) :
  avoids newline x = true -> forallb (avoids newline) l = true ->
  lines (join nl (x :: l)) = x :: l.
Proof.
  revert x. induction l as [|y l IH]; intros x Hx Hl.
  - apply lines_one. exact Hx.
  - simpl in Hl. apply andb_true_iff in Hl as [Hy Hl].
    change (join nl (x :: y :: l)) with (x +:+ nl +:+ join nl (y :: l)).
    rewrite lines_app by assumption. rewrite IH by assumption. reflexivity.
Qed.

(** *** Tags *)

Lemma eqb_sym' (a b : ascii) : Ascii.eqb a b = Ascii.eqb b a.
Proof.
  destruct (Ascii.eqb b a) eqn:E.
  - apply Ascii.eqb_eq in E. subst. apply eqb_refl'.
  - apply not_true_is_false. intros E'. apply Ascii.eqb_eq in E'. subst.
    rewrite eqb_refl' in E. discriminate.
Qed.

Lemma startsWith_nil (s : string) : startsWith s "" = true.
Proof. destruct s; reflexivity. Qed.

(** Appending text does not change whether [tag] starts here, unless what
    is here is a proper prefix of [tag]. *)
Lemma startsWith_stable (tag a s : string) :
  partialTag tag a = false -> startsWith (a +:+ s) tag = startsWith a tag.
Proof.
  unfold partialTag. revert a. induction tag as [|t tag IH]; intros a Hp.
  - rewrite !startsWith_nil. reflexivity.
  - destruct a as [|c a].
    + simpl in Hp. discriminate.
    + simpl. simpl in Hp. rewrite (eqb_sym' c t) in Hp.
      destruct (Ascii.eqb t c); [|reflexivity].
      apply IH. exact Hp.
Qed.

Lemma countTag_nil (tag : string) : tag <> "" -> countTag tag "" = 0%nat.
Proof. destruct tag; [congruence | reflexivity]. Qed.

Lemma tagBodies_nil (tag : string) : tag <> "" -> tagBodies tag "" = [].
Proof. destruct tag; [congruence | reflexivity]. Qed.

Lemma countTag_app (tag a s : string) :
  tag <> "" -> noStraddle tag a = true ->
  countTag tag (a +:+ s) = (countTag tag a + countTag tag s)%nat.
Proof.
  intros Htag. induction a as [|c a IH]; intros Ha.
  - rewrite countTag_nil by assumption. reflexivity.
  - cbn [noStraddle] in Ha. apply andb_true_iff in Ha as [Hp Ha].
    apply negb_true_iff in Hp.
    change (String c a +:+ s) with (String c (a +:+ s)).
    cbn [countTag]. rewrite (IH Ha).
    change (String c (a +:+ s)) with (String c a +:+ s).
    rewrite (startsWith_stable _ _ s Hp). lia.
Qed.

Lemma countTag_zero_head (tag : string) (c : ascii) (a : string) :
  countTag tag (String c a) = 0%nat ->
  startsWith (String c a) tag = false /\ countTag tag a = 0%nat.
Proof.
  cbn [countTag]. destruct (startsWith (String c a) tag); [lia|]. auto.
Qed.

(** A chunk without the tag, and in which no tag can begin, is skipped. *)
Lemma tagBodies_skip (tag a s : string) :
  tag <> "" -> noStraddle tag a = true -> countTag tag a = 0%nat ->
  tagBodies tag (a +:+ s) = tagBodies tag s.
Proof.
  intros Htag. induction a as [|c a IH]; intros Ha Hc; [reflexivity|].
  cbn [noStraddle] in Ha. apply andb_true_iff in Ha as [Hp Ha].
  apply negb_true_iff in Hp. apply countTag_zero_head in Hc as [Hh Hc].
  change (String c a +:+ s) with (String c (a +:+ s)).
  cbn [tagBodies]. rewrite (IH Ha Hc).
  change (String c (a +:+ s)) with (String c a +:+ s).
  rewrite (startsWith_stable _ _ s Hp), Hh. reflexivity.
Qed.

(** Text without ["<"] holds no tag and cannot begin one. *)
Lemma avoids_noStraddle (t a : string) :
  avoids tagOpen a = true -> noStraddle (String tagOpen t) a = true.
Proof.
  induction a as [|c a IH]; intros Ha; [reflexivity|].
  simpl in Ha. apply andb_true_iff in Ha as [Hc Ha]. apply negb_true_iff in Hc.
  cbn [noStraddle]. rewrite (IH Ha), andb_true_r.
  unfold partialTag. cbn [startsWith]. rewrite Hc. reflexivity.
Qed.

Lemma avoids_countTag (t a : string) :
  avoids tagOpen a = true -> countTag (String tagOpen t) a = 0%nat.
Proof.
  induction a as [|c a IH]; intros Ha; [reflexivity|].
  simpl in Ha. apply andb_true_iff in Ha as [Hc Ha]. apply negb_true_iff in Hc.
  cbn [countTag startsWith]. rewrite (eqb_sym' tagOpen c), Hc, (IH Ha). reflexivity.
Qed.

Lemma drop_app (a s : string) : drop (String.length a) (a +:+ s) = s.
Proof. induction a as [|c a IH]; simpl; [reflexivity | exact IH]. Qed.

(** At an opening tag the character data that follows is read off. *)
Lemma tagBodies_here (t s : string) :
  avoids tagOpen t = true ->
  tagBodies (String tagOpen t) (String tagOpen t +:+ s) =
    untilLt s :: tagBodies (String tagOpen t) s.
Proof.
  intros Ht. set (tag := String tagOpen t).
  change (tag +:+ s) with (String tagOpen (t +:+ s)).
  cbn [tagBodies].
  change (String tagOpen (t +:+ s)) with (tag +:+ s).
  rewrite startsWith_app, drop_app.
  rewrite tagBodies_skip;
    [reflexivity | discriminate | apply avoids_noStraddle, Ht | apply avoids_countTag, Ht].
Qed.

Lemma untilLt_app (a s : string) :
  avoids tagOpen a = true -> untilLt (a +:+ s) = a +:+ untilLt s.
Proof.
  induction a as [|c a IH]; intros Ha; [reflexivity|].
  simpl in Ha. apply andb_true_iff in Ha as [Hc Ha]. apply negb_true_iff in Hc.
  simpl. rewrite Hc, (IH Ha). reflexivity.
Qed.

End ReadFacts.

(** ** ExportSerializer: CSV *)

Section Csv.
Context `{JsRuntime} `{!JsRuntimeLaws}.
Import Js JsFacts ReadFacts.

Lemma avoids_or_else (c : ascii) (a : option string) (b : string) :
  avoids c (or_else a b) = true ->
  forall p, a = Some p -> avoids c p = true.
Proof. intros Ha p ->. destruct p; [reflexivity | exact Ha]. Qed.

Lemma csvCoord_avoids (x : option (option num)) (d : nat) (text : string) :
  csvCoord x d = Some text -> avoids newline text = true.
Proof.
  destruct x as [[x|]|]; simpl; intros Hx; inversion Hx; subst;
    [apply toFixed_avoids; auto | reflexivity].
Qed.

Lemma escapedPlace_avoids (r : Feature) :
  avoids newline (or_else (prop place r) "Unknown location") = true ->
  avoids newline (escapedPlace r) = true.
Proof.
  intros Hp. unfold escapedPlace. cbn zeta.
  destruct (includes _ ","); [|exact Hp].
  rewrite !avoids_app, Hp. reflexivity.
Qed.

(** An admitted record yields a row, on one line when its texts are. *)
Lemma csvRow_admitted (r : Feature) :
  validFeature r = true -> allAvoid newline (csvTexts r) = true ->
  exists row, csvRow r = Some row /\ avoids newline row = true.
Proof.
  unfold validFeature, csvRow, csvFields.
  destruct (geometry r) as [g|]; [|discriminate].
  cbn [mbind option_bind].
  destruct (coordinates g) as [cs|]; [|discriminate].
  intros Hv Ht. apply andb_true_iff in Hv as [Hlen _].
  apply Nat.eqb_eq in Hlen.
  destruct cs as [|lon [|lat [|depth [|]]]]; try discriminate.
  cbn [mbind option_bind default from_option Datatypes.id lookup list_lookup].
  destruct (csvCoord (Some lon) 6) as [lonText|] eqn:Elon;
    [|destruct lon; discriminate].
  destruct (csvCoord (Some lat) 6) as [latText|] eqn:Elat;
    [|destruct lat; discriminate].
  destruct (csvCoord (Some depth) 2) as [depthText|] eqn:Edepth;
    [|destruct depth; discriminate].
  cbn [mbind option_bind fmap option_fmap option_map].
  eexists. split; [reflexivity|].
  unfold allAvoid, csvTexts in Ht. cbn [forallb] in Ht.
  apply andb_true_iff in Ht as [Hid Ht]. apply andb_true_iff in Ht as [Hplace Ht].
  apply andb_true_iff in Ht as [Hurl _].
  apply avoids_join; [reflexivity|]. cbn [forallb].
  rewrite Hid, (escapedPlace_avoids r Hplace), Hurl.
  rewrite (csvCoord_avoids _ _ _ Elon), (csvCoord_avoids _ _ _ Elat),
    (csvCoord_avoids _ _ _ Edepth).
  assert (avoids newline (default "" ((fun m => toFixed m 2) <$> prop mag r)) = true) as ->.
  { destruct (prop mag r); [apply toFixed_avoids; auto | reflexivity]. }
  assert (avoids newline
            (if truthyZ (prop time r) then toLocaleString (prop time r ≫= newDate) else "")
          = true) as ->.
  { destruct (truthyZ _); [apply toLocaleString_avoids; auto | reflexivity]. }
  reflexivity.
Qed.

Lemma csvRows_admitted (l : list Feature) :
  Forall (fun r => validFeature r = true) l ->
  Forall (fun r => allAvoid newline (csvTexts r) = true) l ->
  exists rows,
    Forall2 (fun r row => csvRow r = Some row) l rows /\
    forallb (avoids newline) rows = true.
Proof.
  induction l as [|r l IH]; intros Hv Ht.
  - exists []. split; [constructor | reflexivity].
  - apply Forall_cons in Hv as [Hr Hv]. apply Forall_cons in Ht as [Hrt Ht].
    destruct (IH Hv Ht) as (rows & Hrows & Hav).
    destruct (csvRow_admitted r Hr Hrt) as (row & Hrow & Hav').
    exists (row :: rows). split; [constructor; assumption|].
    simpl. rewrite Hav', Hav. reflexivity.
Qed.

(** C7, as the code has it: for a non-empty filtered list of admitted
    records whose id, place and link texts hold no line feed, the saved
    text is the byte-order mark and then one header line followed by one
    line per record, in order; and the place field of a record whose place
    holds a comma is the place between double quotes. *)
Theorem csv_shape (s : State) :
  filteredEarthquakes s <> [] ->
  Forall (fun r => validFeature r = true) (filteredEarthquakes s) ->
  Forall (fun r => allAvoid newline (csvTexts r) = true) (filteredEarthquakes s) ->
  exists rows,
    Forall2 (fun r row => csvRow r = Some row) (filteredEarthquakes s) rows /\
    downloadCSV s =
      (s, [SaveBlob
             ("ethiopia_earthquakes_" +:+ startDate s +:+ "_to_" +:+ endDate s +:+ ".csv")
             "text/csv;charset=utf-8;" (BOM +:+ csvText rows)]) /\
    lines (BOM +:+ csvText rows) = (BOM +:+ join "," headers) :: rows /\
    length (lines (BOM +:+ csvText rows)) = S (length (filteredEarthquakes s)) /\
    forall r p, In r (filteredEarthquakes s) ->
      prop place r = Some p -> includes p "," = true ->
      exists fields, csvFields r = Some fields /\
                     csvRow r = Some (join "," fields) /\
                     fields !! 1%nat = Some (dq +:+ p +:+ dq).
Proof.
  intros Hne Hv Ht.
  destruct (csvRows_admitted _ Hv Ht) as (rows & Hrows & Hav).
  exists rows. split; [exact Hrows|].
  assert (lines (BOM +:+ csvText rows) = (BOM +:+ join "," headers) :: rows) as Hlines.
  { unfold csvText.
    destruct rows as [|row rows].
    - apply lines_one. reflexivity.
    - change (join nl (join "," headers :: row :: rows))
        with (join "," headers +:+ nl +:+ join nl (row :: rows)).
      rewrite <- app_assoc. rewrite lines_app by reflexivity.
      rewrite lines_join; [reflexivity | | ];
        simpl in Hav; apply andb_true_iff in Hav; tauto. }
  split; [|split; [exact Hlines|split]].
  - unfold downloadCSV. apply mapM_Some in Hrows. rewrite Hrows.
    destruct (filteredEarthquakes s); [congruence | reflexivity].
  - rewrite Hlines. simpl. f_equal. symmetry. exact (Forall2_length _ _ _ Hrows).
  - intros r p Hr Hp Hcomma.
    rewrite List.Forall_forall in Hv, Ht.
    destruct (csvRow_admitted r (Hv r Hr) (Ht r Hr)) as (row & Hrow & _).
    unfold csvRow in Hrow. destruct (csvFields r) as [fields|] eqn:Ef; [|discriminate].
    exists fields. split; [reflexivity|].
    split; [unfold csvRow; rewrite Ef; reflexivity|].
    unfold csvFields in Ef.
    destruct (geometry r) as [g|]; [|discriminate].
    cbn [mbind option_bind] in Ef.
    destruct (csvCoord (_ !! 0%nat) 6); cbn [mbind option_bind] in Ef; [|discriminate].
    destruct (csvCoord (_ !! 1%nat) 6); cbn [mbind option_bind] in Ef; [|discriminate].
    destruct (csvCoord (_ !! 2%nat) 2); cbn [mbind option_bind] in Ef; [|discriminate].
    injection Ef as <-. cbn [lookup list_lookup]. f_equal.
    unfold escapedPlace. rewrite Hp. cbn zeta.
    destruct p as [|c p]; [discriminate|]. cbn [or_else]. rewrite Hcomma. reflexivity.
Qed.

End Csv.

(** ** ExportSerializer: KML and KMZ *)

Section Kml.
Context `{JsRuntime} `{!JsRuntimeLaws}.
Import Js JsFacts ReadFacts.

Lemma tagBodies_coordinates (s : string) :
  tagBodies "<coordinates>" ("<coordinates>" +:+ s) =
    untilLt s :: tagBodies "<coordinates>" s.
Proof. exact (tagBodies_here "coordinates>" s eq_refl). Qed.

Lemma untilLt_close (s : string) : untilLt (",0</coordinates>" +:+ s) = ",0".
Proof. reflexivity. Qed.

Ltac chunk_ok :=
  first [ reflexivity
        | discriminate
        | apply avoids_noStraddle; assumption
        | apply avoids_countTag; assumption ].

Ltac count_chunks time :=
  pose proof (toLocaleString_avoids tagOpen (Date_parse time) (or_intror eq_refl));
  rewrite template_app; unfold placemarkChunks; cbn [fold_right];
  repeat (rewrite countTag_app by chunk_ok);
  repeat match goal with
         | Hx : avoids tagOpen ?x = true |- _ => rewrite (avoids_countTag _ x Hx)
         end;
  reflexivity.

(** One record's block holds one Placemark, whatever follows it. *)
Lemma block_count (mag place time depth url lon lat s : string) :
  avoids tagOpen mag = true -> avoids tagOpen place = true ->
  avoids tagOpen time = true -> avoids tagOpen depth = true ->
  avoids tagOpen url = true -> avoids tagOpen lon = true ->
  avoids tagOpen lat = true ->
  countTag "<Placemark>"
    (template (placemarkChunks mag place time depth url lon lat) +:+ s) =
  S (countTag "<Placemark>" s).
Proof. intros. count_chunks time. Qed.

(** ... one Point, *)
Lemma block_points (mag place time depth url lon lat s : string) :
  avoids tagOpen mag = true -> avoids tagOpen place = true ->
  avoids tagOpen time = true -> avoids tagOpen depth = true ->
  avoids tagOpen url = true -> avoids tagOpen lon = true ->
  avoids tagOpen lat = true ->
  countTag "<Point>"
    (template (placemarkChunks mag place time depth url lon lat) +:+ s) =
  S (countTag "<Point>" s).
Proof. intros. count_chunks time. Qed.

(** ... and one coordinates element, reading [lon,lat,0]. *)
Lemma block_bodies (mag place time depth url lon lat s : string) :
  avoids tagOpen mag = true -> avoids tagOpen place = true ->
  avoids tagOpen time = true -> avoids tagOpen depth = true ->
  avoids tagOpen url = true -> avoids tagOpen lon = true ->
  avoids tagOpen lat = true ->
  tagBodies "<coordinates>"
    (template (placemarkChunks mag place time depth url lon lat) +:+ s) =
  (lon +:+ "," +:+ lat +:+ ",0") :: tagBodies "<coordinates>" s.
Proof.
  intros Hmag Hplace Htime Hdepth Hurl Hlon Hlat.
  pose proof (toLocaleString_avoids tagOpen (Date_parse time) (or_intror eq_refl)) as Hloc.
  rewrite template_app. unfold placemarkChunks. cbn [fold_right].
  repeat first [ rewrite tagBodies_coordinates
               | rewrite tagBodies_skip by chunk_ok ].
  rewrite (untilLt_app lon) by assumption.
  rewrite (untilLt_app ",") by reflexivity.
  rewrite (untilLt_app lat) by assumption.
  rewrite untilLt_close. reflexivity.
Qed.

Lemma generateKML_blocks (records : list Feature) (blocks : list string) :
  Forall2 (fun r b => placemark r = Some b) records blocks ->
  generateKML records = Some (kmlHeader +:+ template blocks +:+ kmlFooter).
Proof.
  intros Hb. unfold generateKML.
  assert (forall acc,
            foldl (fun acc eq => kmlContent ← acc; block ← placemark eq;
                                 Some (kmlContent +:+ block))
                  (Some acc) records = Some (acc +:+ template blocks)) as Hfold.
  { induction Hb as [|r b records blocks Hr Hb IH]; intros acc.
    - simpl. rewrite ReadFacts.app_nil_r. reflexivity.
    - cbn [foldl mbind option_bind]. rewrite Hr. cbn [mbind option_bind].
      rewrite IH. cbn [template fold_right]. rewrite app_assoc. reflexivity. }
  rewrite Hfold. cbn [mbind option_bind]. rewrite app_assoc. reflexivity.
Qed.

Lemma avoids_or_else_intro (c : ascii) (a : option string) (b : string) :
  (forall p, a = Some p -> avoids c p = true) -> avoids c b = true ->
  avoids c (or_else a b) = true.
Proof.
  intros Ha Hb. destruct a as [[|x p]|]; [exact Hb | | exact Hb].
  apply (Ha _ eq_refl).
Qed.

Lemma kmlMag_avoids (r : Feature) : avoids tagOpen (kmlMag r) = true.
Proof.
  unfold kmlMag. apply avoids_or_else_intro; [|reflexivity].
  intros p Hp. destruct (prop mag r) as [m|]; [|discriminate].
  injection Hp as <-. apply toFixed_avoids. auto.
Qed.

Lemma kmlTime_avoids (r : Feature) (text : string) :
  kmlTime r = Some text -> avoids tagOpen text = true.
Proof.
  unfold kmlTime. destruct (prop time r) as [t|]; [|intros [= <-]; reflexivity].
  destruct (t =? 0); [intros [= <-]; reflexivity|].
  destruct (newDate t); [|discriminate].
  intros [= <-]. apply toISOString_avoids. auto.
Qed.

Lemma kmlTime_representable (r : Feature) :
  representable r = true -> is_Some (kmlTime r).
Proof.
  unfold representable, kmlTime, newDate. destruct (prop time r) as [t|]; [|eauto].
  intros ->. destruct (t =? 0); eauto.
Qed.

Lemma depthText_avoids (x : option (option num)) : avoids tagOpen (depthText x) = true.
Proof. destruct x as [[x|]|]; try reflexivity. apply toFixed_avoids. auto. Qed.

Lemma coordText_avoids (x : option (option num)) : avoids tagOpen (coordText x) = true.
Proof. destruct x as [[x|]|]; try reflexivity. apply num_toString_avoids. auto. Qed.

(** What one record adds to the document, read back. *)
Lemma placemark_read (r : Feature) (b : string) :
  placemark r = Some b -> allAvoid tagOpen (kmlTexts r) = true ->
  (forall s, countTag "<Placemark>" (b +:+ s) = S (countTag "<Placemark>" s)) /\
  (forall s, countTag "<Point>" (b +:+ s) = S (countTag "<Point>" s)) /\
  (forall s, tagBodies "<coordinates>" (b +:+ s) =
             pointText r :: tagBodies "<coordinates>" s).
Proof.
  unfold placemark, pointText, allAvoid, kmlTexts.
  destruct (geometry r) as [g|]; [|discriminate]. cbn [mbind option_bind].
  destruct (coordinates g) as [cs|]; [|discriminate]. cbn [mbind option_bind forallb].
  destruct (kmlTime r) as [text|] eqn:Etext; [|discriminate]. cbn [mbind option_bind].
  intros Hb Ht. injection Hb as <-.
  pose proof (kmlTime_avoids r text Etext) as Htext.
  apply andb_true_iff in Ht as [Hplace Ht]. apply andb_true_iff in Ht as [Hurl _].
  split; [|split]; intros s.
  - apply block_count;
      auto using kmlMag_avoids, depthText_avoids, coordText_avoids.
  - apply block_points;
      auto using kmlMag_avoids, depthText_avoids, coordText_avoids.
  - apply block_bodies;
      auto using kmlMag_avoids, depthText_avoids, coordText_avoids.
Qed.

Lemma placemark_admitted (r : Feature) :
  validFeature r = true -> representable r = true -> is_Some (placemark r).
Proof.
  unfold validFeature, placemark. intros Hv Hrange.
  destruct (geometry r) as [g|]; [|discriminate]. cbn [mbind option_bind].
  destruct (coordinates g) as [cs|]; [|discriminate]. cbn [mbind option_bind].
  destruct (kmlTime_representable r Hrange) as [text ->]. cbn [mbind option_bind].
  eauto.
Qed.

Lemma placemarks_admitted (records : list Feature) :
  Forall (fun r => validFeature r = true) records ->
  Forall (fun r => representable r = true) records ->
  exists blocks, Forall2 (fun r b => placemark r = Some b) records blocks.
Proof.
  induction 1 as [|r records Hr _ IH]; intros Hrange; [exists []; constructor|].
  apply Forall_cons in Hrange as [Hrr Hrange].
  destruct (IH Hrange) as [blocks Hblocks].
  destruct (placemark_admitted r Hr Hrr) as [b Hb].
  exists (b :: blocks). constructor; assumption.
Qed.

Lemma blocks_read (records : list Feature) (blocks : list string) (s : string) :
  Forall2 (fun r b => placemark r = Some b) records blocks ->
  Forall (fun r => allAvoid tagOpen (kmlTexts r) = true) records ->
  countTag "<Placemark>" (template blocks +:+ s) =
    (length records + countTag "<Placemark>" s)%nat /\
  countTag "<Point>" (template blocks +:+ s) =
    (length records + countTag "<Point>" s)%nat /\
  tagBodies "<coordinates>" (template blocks +:+ s) =
    map pointText records ++ tagBodies "<coordinates>" s.
Proof.
  induction 1 as [|r b records blocks Hr _ IH]; intros Ht.
  - repeat split; reflexivity.
  - apply Forall_cons in Ht as [Hrt Ht]. destruct (IH Ht) as (IHc & IHp & IHb).
    destruct (placemark_read r b Hr Hrt) as (Hc & Hp & Hb).
    cbn [template fold_right]. rewrite app_assoc.
    change (fold_right String.append "" blocks) with (template blocks).
    rewrite Hc, Hp, Hb, IHc, IHp, IHb. repeat split; reflexivity.
Qed.

(** C8, as the code has it: for admitted records whose time is a date
    JavaScript can represent and whose place and link texts hold no ["<"],
    the document holds one Placemark per record and its coordinates
    elements read, in input order, longitude, latitude and [0] of each
    record; with such a list, not empty, as the filtered list, and the
    archive generated, the KMZ export saves an archive whose only entry is
    [doc.kml], holding that document. *)
Theorem kml_shape (records : list Feature) :
  Forall (fun r => validFeature r = true) records ->
  Forall (fun r => representable r = true) records ->
  Forall (fun r => allAvoid tagOpen (kmlTexts r) = true) records ->
  exists kml,
    generateKML records = Some kml /\
    countTag "<Placemark>" kml = length records /\
    countTag "<Point>" kml = length records /\
    tagBodies "<coordinates>" kml = map pointText records /\
    forall s, filteredEarthquakes s = records -> records <> [] ->
      downloadKMZ true s =
        (setIsDownloading false s,
         [SaveArchive
            ("ethiopia_earthquakes_" +:+ startDate s +:+ "_to_" +:+ endDate s +:+ ".kmz")
            {[ "doc.kml" := kml ]}]).
Proof.
  intros Hv Hrange Ht.
  destruct (placemarks_admitted records Hv Hrange) as [blocks Hblocks].
  pose proof (generateKML_blocks records blocks Hblocks) as Hkml.
  destruct (blocks_read records blocks kmlFooter Hblocks Ht) as (Hc & Hp & Hb).
  eexists. split; [exact Hkml|]. split; [|split; [|split]].
  - rewrite countTag_app by (vm_compute; congruence || reflexivity).
    rewrite Hc.
    replace (countTag "<Placemark>" kmlHeader) with 0%nat by (vm_compute; reflexivity).
    replace (countTag "<Placemark>" kmlFooter) with 0%nat by (vm_compute; reflexivity).
    lia.
  - rewrite countTag_app by (vm_compute; congruence || reflexivity).
    rewrite Hp.
    replace (countTag "<Point>" kmlHeader) with 0%nat by (vm_compute; reflexivity).
    replace (countTag "<Point>" kmlFooter) with 0%nat by (vm_compute; reflexivity).
    lia.
  - rewrite tagBodies_skip by (vm_compute; congruence || reflexivity).
    rewrite Hb.
    replace (tagBodies "<coordinates>" kmlFooter) with (@nil string)
      by (vm_compute; reflexivity).
    apply List.app_nil_r.
  - intros s Hs Hne. unfold downloadKMZ. rewrite Hs.
    destruct records as [|r records]; [congruence|].
    cbn zeta.
    change (filteredEarthquakes (setIsDownloading true s)) with (filteredEarthquakes s).
    rewrite Hs, Hkml. rewrite insert_empty. reflexivity.
Qed.

End Kml.

(** ** Worked examples on the example runtime *)

Module Worked.
Import Js Example.
#[local] Existing Instance runtime.

Lemma digit_avoids (c : ascii) (k : N) :
  c = newline \/ c = tagOpen -> Ascii.eqb (digit k) c = false.
Proof.
  intros [-> | ->];
    (destruct k as [|p]; [reflexivity|]);
    do 4 (try (destruct p as [p|p|]; try reflexivity)).
Qed.

Lemma showN_avoids (c : ascii) (fuel : nat) (n : N) (acc : string) :
  c = newline \/ c = tagOpen -> avoids c acc = true ->
  avoids c (showN fuel n acc) = true.
Proof.
  intros Hc. revert n acc. induction fuel as [|fuel IH]; intros n acc Hacc; [exact Hacc|].
  cbn [showN].
  assert (avoids c (String (digit (n mod 10)) acc) = true) as Hacc'.
  { cbn [avoids]. rewrite (digit_avoids c _ Hc), Hacc. reflexivity. }
  destruct (n <? 10)%N; [exact Hacc' | apply IH, Hacc'].
Qed.

Lemma showZ_avoids (c : ascii) (x : Z) :
  c = newline \/ c = tagOpen -> avoids c (showZ x) = true.
Proof.
  intros Hc. unfold showZ. rewrite ReadFacts.avoids_app.
  rewrite (showN_avoids c _ _ "" Hc eq_refl), andb_true_r.
  destruct (x <? 0), Hc as [-> | ->]; reflexivity.
Qed.

Lemma zeros_avoids (c : ascii) (d : nat) :
  c = newline \/ c = tagOpen -> avoids c (zeros d) = true.
Proof.
  intros Hc. induction d as [|d IH]; [reflexivity|].
  cbn [zeros avoids]. rewrite IH. destruct Hc as [-> | ->]; reflexivity.
Qed.

Lemma showDate_avoids (c : ascii) (t : Z) :
  c = newline \/ c = tagOpen -> avoids c (showDate t) = true.
Proof.
  intros Hc. unfold showDate. rewrite ReadFacts.avoids_app, (showZ_avoids c t Hc).
  destruct Hc as [-> | ->]; reflexivity.
Qed.

Lemma readDate_samples :
  readDate "2000-01-01" = Some 946684800000 /\
  readDate "2023-11-15" = Some 1700006400000 /\
  readDate "1970-01-01" = Some 0 /\
  readDate (showDate now) = Some now /\
  readDate "yesterday" = None.
Proof. repeat split; reflexivity. Qed.

Lemma laws : JsRuntimeLaws.
Proof.
  split.
  - intros c x d Hc. cbn. unfold showFixed. destruct d as [|d].
    + apply showZ_avoids, Hc.
    + rewrite !ReadFacts.avoids_app, (showZ_avoids c x Hc), (zeros_avoids c (S d) Hc).
      destruct Hc as [-> | ->]; reflexivity.
  - intros c x Hc. apply showZ_avoids, Hc.
  - intros c t Hc. apply showDate_avoids, Hc.
  - intros c [t|] Hc; [apply showDate_avoids, Hc|].
    destruct Hc as [-> | ->]; reflexivity.
Qed.

Lemma validFeatures_feed : validFeatures feed = [rA; rB; rD].
Proof. reflexivity. Qed.

Lemma novelty_transition_witness :
  let first :=
    fetchEarthquakes (readings now) (Response 200 (Some (FeatureCollection feed))) seenABC in
  let second :=
    fetchEarthquakes (readings (now + 300000)) (Response 200 (Some (FeatureCollection feed)))
      first.1.1 in
  first.1.2 = List.filter (fun f => bool_decide (id f = Some "us6000d")) (validFeatures feed) /\
  idSet first.1.2 = {[ "us6000d" ]} /\
  {[ "us6000d" ]} ⊆ announcedEarthquakeIds first.1.1 /\
  previousEarthquakeIds first.1.1 = {[ "us6000a"; "us6000b"; "us6000d" ]} /\
  second.1.2 = [].
Proof.
  apply (novelty_transition "us6000a" "us6000b" "us6000c" "us6000d").
  - apply (bool_decide_unpack _). vm_compute. exact I.
  - reflexivity.
  - reflexivity.
  - reflexivity.
  - intros f Hf Hid. rewrite validFeatures_feed in Hf.
    destruct Hf as [<-|[<-|[<-|[]]]]; try discriminate Hid. reflexivity.
Defined.


Lemma failure_recovered_witness :
  let r := fetchEarthquakes (readings now) (Response 503 None) loaded in
  r.1.1 = setIsLoading false loaded /\
  earthquakes r.1.1 = earthquakes loaded /\
  filteredEarthquakes r.1.1 = filteredEarthquakes loaded /\
  previousEarthquakeIds r.1.1 = previousEarthquakeIds loaded /\
  announcedEarthquakeIds r.1.1 = announcedEarthquakeIds loaded /\
  isLoading r.1.1 = false /\
  r.1.2 = [] /\
  forall clock' result',
    fetchEarthquakes clock' result' r.1.1 = fetchEarthquakes clock' result' loaded.
Proof.
  apply (failure_recovered (readings now) (Response 503 None) loaded). reflexivity.
Defined.

(** C9 as stated fails: the source never reads the response status, so a
    response of status 500 that carries a feature collection is ingested. *)
Lemma failure_atomicity_counterexample :
  let result := Response 500 (Some (FeatureCollection feed)) in
  let after := (fetchEarthquakes (readings now) result seenABC).1.1 in
  specFailure result = true /\
  earthquakes seenABC = [] /\ earthquakes after = [rA; rB; rD] /\
  filteredEarthquakes seenABC = [] /\ filteredEarthquakes after = [rA; rD] /\
  announcedEarthquakeIds seenABC = ∅ /\ announcedEarthquakeIds after = {[ "us6000d" ]} /\
  previousEarthquakeIds seenABC = {[ "us6000a"; "us6000b"; "us6000c" ]} /\
  previousEarthquakeIds after = {[ "us6000a"; "us6000b"; "us6000d" ]}.
Proof. cbn zeta. repeat split; reflexivity. Qed.

Lemma filter_contract_witness :
  let s := setEarthquakes [rA; rNoTime; rB; rD] initial in
  filteredEarthquakes (filterEffect s) =
    List.filter (specIncluded "2000-01-01" "2023-11-15" 0) [rA; rNoTime; rB; rD] /\
  filteredEarthquakes (filterEffect s) = [rA; rD] /\
  earthquakes (filterEffect s) = [rA; rNoTime; rB; rD] /\
  ~ In rB (filteredEarthquakes (filterEffect s)).
Proof.
  intros s.
  assert (Forall (fun r => regular r = true) (earthquakes s)) as Hv.
  { repeat constructor. }
  assert (Forall (fun r => representable r = true) (earthquakes s)) as Hrange.
  { repeat constructor. }
  destruct (filter_contract s Hv Hrange) as (Hf & He & Hm).
  split; [exact Hf|]. split; [reflexivity|]. split; [exact He|].
  apply Hm. reflexivity.
Defined.

(** C6 as stated fails: a time beyond the range of [Date] makes an invalid
    date, which no bound that is set admits.  With the end date cleared the
    specification's predicate selects such a record, admitted by the fetch
    as it is, and the filter drops it. *)
Lemma filter_contract_counterexample :
  let s := setEndDate "" (setEarthquakes [rA; rFar] initial) in
  validFeature rFar = true /\
  regular rFar = true /\
  startDate s = "2000-01-01" /\ endDate s = "" /\
  List.filter (specIncluded (startDate s) (endDate s) (minMag s)) (earthquakes s) =
    [rA; rFar] /\
  filteredEarthquakes (filterEffect s) = [rA].
Proof. cbn zeta. repeat split; reflexivity. Qed.

Lemma empty_export_refused_witness :
  filteredEarthquakes initial = [] /\
  downloadCSV initial =
    (initial, [Alert "No earthquakes to download for the selected filters."]) /\
  downloadKMZ true initial =
    (initial, [Alert "No earthquakes to download for the selected filters."]).
Proof.
  split; [reflexivity|]. apply (empty_export_refused initial true). reflexivity.
Defined.

Lemma csv_shape_witness :
  exists rows,
    Forall2 (fun r row => csvRow r = Some row) [rA; rD] rows /\
    savedText (downloadCSV (showing [rA; rD])).2 = Some (BOM +:+ csvText rows) /\
    lines (BOM +:+ csvText rows) = (BOM +:+ join "," headers) :: rows /\
    length (lines (BOM +:+ csvText rows)) = 3%nat /\
    exists fields, csvFields rD = Some fields /\
      fields !! 1%nat = Some (dq +:+ "52 km NNE of Mekele, Ethiopia" +:+ dq).
Proof.
  assert (filteredEarthquakes (showing [rA; rD]) <> []) as Hne by discriminate.
  assert (Forall (fun r => validFeature r = true)
            (filteredEarthquakes (showing [rA; rD]))) as Hv by (repeat constructor).
  assert (Forall (fun r => allAvoid newline (csvTexts r) = true)
            (filteredEarthquakes (showing [rA; rD]))) as Ht by (repeat constructor).
  destruct (@csv_shape runtime laws (showing [rA; rD]) Hne Hv Ht)
    as (rows & Hrows & Hsave & Hlines & Hlen & Hquote).
  exists rows. split; [exact Hrows|]. split; [rewrite Hsave; reflexivity|].
  split; [exact Hlines|]. split; [exact Hlen|].
  destruct (Hquote rD "52 km NNE of Mekele, Ethiopia") as (fields & Hf & _ & Hq);
    [right; left; reflexivity | reflexivity | reflexivity |].
  exists fields. split; assumption.
Defined.

(** C7 as stated fails twice: a place text on two lines gives three lines
    for one record, and an empty filtered list gives no text at all. *)
Lemma csv_shape_counterexample :
  validFeature rTwoLines = true /\
  length (filteredEarthquakes (showing [rTwoLines])) = 1%nat /\
  (length ∘ lines <$> savedText (downloadCSV (showing [rTwoLines])).2) = Some 3%nat /\
  length (filteredEarthquakes (showing [])) = 0%nat /\
  savedText (downloadCSV (showing [])).2 = None.
Proof. repeat split; reflexivity. Qed.

Lemma kml_shape_witness :
  exists kml,
    generateKML [rA; rD] = Some kml /\
    countTag "<Placemark>" kml = 2%nat /\
    countTag "<Point>" kml = 2%nat /\
    tagBodies "<coordinates>" kml = ["39,13,0"; "39,13,0"] /\
    downloadKMZ true (showing [rA; rD]) =
      (setIsDownloading false (showing [rA; rD]),
       [SaveArchive "ethiopia_earthquakes_2000-01-01_to_2023-11-15.kmz"
          {[ "doc.kml" := kml ]}]).
Proof.
  assert (Forall (fun r => validFeature r = true) [rA; rD]) as Hv by (repeat constructor).
  assert (Forall (fun r => representable r = true) [rA; rD]) as Hrange
    by (repeat constructor).
  assert (Forall (fun r => allAvoid tagOpen (kmlTexts r) = true) [rA; rD]) as Ht
    by (repeat constructor).
  destruct (@kml_shape runtime laws [rA; rD] Hv Hrange Ht)
    as (kml & Hkml & Hc & Hp & Hb & Hz).
  exists kml. split; [exact Hkml|]. split; [exact Hc|]. split; [exact Hp|].
  split; [exact Hb|].
  apply (Hz (showing [rA; rD])); [reflexivity | discriminate].
Defined.

(** C8 as stated fails three times: markup in a place text is copied into
    the document, which then holds more Placemark tags than records (one
    of them a second Placemark element, inside [name]); with an empty
    filtered list the KMZ export saves no archive; and for an admitted
    record whose time no [Date] can hold [toISOString] raises, so no
    document is generated and the export reports a failure. *)
Lemma kml_shape_counterexample :
  validFeature rMarkup = true /\
  length [rMarkup] = 1%nat /\
  (countTag "<Placemark>" <$> generateKML [rMarkup]) = Some 3%nat /\
  (downloadKMZ true (showing [])).2 =
    [Alert "No earthquakes to download for the selected filters."] /\
  validFeature rFar = true /\
  generateKML [rFar] = None /\
  (downloadKMZ true (showing [rFar])).2 =
    [ConsoleError "Error creating KMZ:";
     Alert "Error creating KMZ file. Please try again."].
Proof. repeat split; reflexivity. Qed.

End Worked.

(** * Further properties of the component *)

(** ** The string primitives, continued *)

Module JsMore.
Import Js JsFacts.

Lemma cut_Some_includes (sep s before after : string) :
  cut sep s = Some (before, after) -> includes s sep = true.
Proof.
  intros Hc. apply cut_spec in Hc. subst s.
  apply includes_app_r, includes_here, startsWith_app.
Qed.

Lemma cut_None (sep s : string) : includes s sep = false -> cut sep s = None.
Proof.
  intros Hs. destruct (cut sep s) as [[b a]|] eqn:Ec; [|reflexivity].
  apply cut_Some_includes in Ec. congruence.
Qed.

(** The text before the first occurrence holds no occurrence. *)
Lemma cut_before_free (sep s before after : string) :
  sep <> "" -> cut sep s = Some (before, after) -> includes before sep = false.
Proof.
  intros Hsep. revert before. induction s as [|c s IH]; intros before Hc.
  - cbn [cut] in Hc. destruct (startsWith "" sep); [|discriminate].
    injection Hc as <- _. destruct sep; [congruence | reflexivity].
  - pose proof (cut_spec _ _ _ _ Hc) as Hs. cbn [cut] in Hc.
    destruct (startsWith (String c s) sep) eqn:E.
    + injection Hc as <- _. destruct sep; [congruence | reflexivity].
    + destruct (cut sep s) as [[b a]|] eqn:Ec; [|discriminate].
      injection Hc as <- <-. cbn [includes]. rewrite (IH b eq_refl), orb_false_r.
      apply not_true_is_false. intros Hb.
      apply (startsWith_app_l _ _ (sep +:+ a)) in Hb. rewrite <- Hs in Hb. congruence.
Qed.

Lemma split_first (sep s : string) :
  sep <> "" -> exists x, split sep s !! 0%nat = Some x /\ includes x sep = false.
Proof.
  intros Hsep. rewrite split_cut by assumption.
  destruct (cut sep s) as [[b a]|] eqn:Ec.
  - exists b. split; [reflexivity | exact (cut_before_free _ _ _ _ Hsep Ec)].
  - exists s. split; [reflexivity|].
    destruct (includes s sep) eqn:E; [|reflexivity].
    destruct (cut_includes _ _ E) as [x Hx]. congruence.
Qed.

(** A separator of one character is first met where the text before it
    avoids that character. *)
Lemma cut_char (c : ascii) (p rest : string) :
  avoids c p = true ->
  cut (String c "") (p +:+ String c rest) = Some (p, rest).
Proof.
  induction p as [|x p IH]; intros Hp.
  - cbn [String.append cut startsWith]. rewrite eqb_refl', ReadFacts.startsWith_nil. reflexivity.
  - cbn [avoids] in Hp. apply andb_true_iff in Hp as [Hx Hp].
    apply negb_true_iff in Hx.
    cbn [String.append cut startsWith].
    replace (Ascii.eqb c x) with false.
    + rewrite (IH Hp). reflexivity.
    + symmetry. apply not_true_is_false. intros E. apply Ascii.eqb_eq in E. subst.
      rewrite eqb_refl' in Hx. discriminate.
Qed.

Lemma lower_ascii_idem (c : ascii) : lower_ascii (lower_ascii c) = lower_ascii c.
Proof. destruct c as [[] [] [] [] [] [] [] []]; reflexivity. Qed.

Lemma toLowerCase_idem (s : string) : toLowerCase (toLowerCase s) = toLowerCase s.
Proof.
  induction s as [|c s IH]; [reflexivity|].
  cbn [toLowerCase]. rewrite lower_ascii_idem, IH. reflexivity.
Qed.

Lemma existsb_none {A} (f : A -> bool) (l : list A) :
  (forall x, In x l -> f x = false) -> existsb f l = false.
Proof.
  induction l as [|x l IH]; intros Hf; [reflexivity|].
  simpl. rewrite (Hf x) by (left; reflexivity).
  apply IH. intros y Hy. apply Hf. right. exact Hy.
Qed.

(** X4: joining the pieces of a split with the separator gives the text
    back. *)
Theorem join_split (sep s : string) :
  sep <> "" -> join sep (split sep s) = s.
Proof.
  intros Hsep.
  remember (String.length s) as n eqn:Hn. revert s Hn.
  induction n as [n IH] using lt_wf_ind. intros s Hn.
  rewrite split_cut by assumption.
  destruct (cut sep s) as [[b a]|] eqn:Ec; [|reflexivity].
  pose proof (cut_shorter _ _ _ _ Hsep Ec) as Hlt.
  pose proof (IH (String.length a) ltac:(lia) a eq_refl) as Ha.
  destruct (split_head sep a Hsep) as (x & l & Hx & _).
  rewrite Hx in *.
  change (join sep (b :: x :: l)) with (b +:+ sep +:+ join sep (x :: l)).
  rewrite Ha. symmetry. apply cut_spec. exact Ec.
Qed.

Lemma join_split_witness :
  split "of " "5 km N of Port of Assab" = ["5 km N "; "Port "; "Assab"] /\
  join "of " (split "of " "5 km N of Port of Assab") = "5 km N of Port of Assab".
Proof. split; [reflexivity|]. apply join_split. discriminate. Defined.

End JsMore.

(** ** GeoClassifier, continued *)

Section ClassifierMore.
Import Js JsFacts JsMore.

(** X1: the classifier accepts exactly the non-empty texts that hold an
    inclusion keyword and are not excluded; the ["of "] pass never changes
    the outcome. *)
Theorem classifier_two_passes (place : string) :
  isEthiopiaLocation (Some place) = true <->
  place <> "" /\
  excluded (toLowerCase place) = false /\
  hasKeyword (toLowerCase place) = true.
Proof.
  rewrite of_pass_redundant. destruct place as [|c rest].
  - split; [discriminate | intros [Hne _]; congruence].
  - rewrite andb_true_iff, negb_true_iff. split.
    + intros [Hx Hk]. repeat split; [discriminate | exact Hx | exact Hk].
    + intros (_ & Hx & Hk). split; assumption.
Qed.

(** X2: a text that names Ethiopia is accepted, whatever neighbouring
    regions it also names. *)
Theorem ethiopia_named_accepted (place : string) :
  includes (toLowerCase place) "ethiopia" = true ->
  isEthiopiaLocation (Some place) = true.
Proof.
  intros He. rewrite of_pass_redundant.
  destruct place as [|c rest]; [discriminate He|].
  assert (excluded (toLowerCase (String c rest)) = false) as ->.
  { apply existsb_none. intros country _. rewrite He. apply andb_false_r. }
  assert (hasKeyword (toLowerCase (String c rest)) = true) as ->; [|reflexivity].
  apply existsb_exists. exists "ethiopia". split; [simpl; tauto | exact He].
Qed.

Lemma ethiopia_named_accepted_witness :
  excluded (toLowerCase "Kenya-Ethiopia border region") = false /\
  includes (toLowerCase "Kenya-Ethiopia border region") "kenya" = true /\
  isEthiopiaLocation (Some "Kenya-Ethiopia border region") = true.
Proof.
  split; [reflexivity|]. split; [reflexivity|].
  apply ethiopia_named_accepted. reflexivity.
Defined.

(** X3: the classifier does not see letter case: two texts with the same
    lower-case form are classified alike, and a text is classified as its
    own lower-case form is. *)
Theorem classify_case_insensitive (p q : string) :
  toLowerCase p = toLowerCase q ->
  isEthiopiaLocation (Some p) = isEthiopiaLocation (Some q) /\
  isEthiopiaLocation (Some (toLowerCase p)) = isEthiopiaLocation (Some p).
Proof.
  intros Hpq. rewrite !of_pass_redundant, toLowerCase_idem, <- Hpq.
  destruct p as [|c p], q as [|d q]; try discriminate Hpq; split; reflexivity.
Qed.

Lemma classify_case_insensitive_witness :
  isEthiopiaLocation (Some "AFAR REGION") = isEthiopiaLocation (Some "Afar Region") /\
  isEthiopiaLocation (Some (toLowerCase "AFAR REGION")) = isEthiopiaLocation (Some "AFAR REGION").
Proof. apply classify_case_insensitive. reflexivity. Defined.

End ClassifierMore.

(** ** AlertDispatcher *)

Section Alerts.
Context `{JsRuntime}.
Import Js JsFacts JsMore.

Lemma comma_nonempty : "," <> "".
Proof. discriminate. Qed.

(** X5: the short place name the alerts use never holds a comma. *)
Theorem shortPlace_no_comma (place : string) :
  includes (shortPlace place) "," = false.
Proof.
  unfold shortPlace.
  set (locationName := if includes place "of " then _ else place).
  destruct (includes locationName ",") eqn:E; [|exact E].
  destruct (split_first "," locationName comma_nonempty) as (x & -> & Hx).
  exact Hx.
Qed.

(** X6: for a place of the form [pre of city, rest], with no other ["of "]
    after the first and no comma in [city], the spoken message names
    [city], trimmed. *)
Theorem spoken_location (eq : Feature) (p pre city rest : string) :
  prop place eq = Some p ->
  cut "of " p = Some (pre, city +:+ "," +:+ rest) ->
  includes (city +:+ "," +:+ rest) "of " = false ->
  avoids "," city = true ->
  speechFor eq =
    [ CancelSpeech;
      Speak ("New earthquake detected. Magnitude " +:+
             or_else ((fun m => toFixed m 1) <$> prop mag eq) "unknown" +:+
             " at " +:+ trim city +:+ ".") ].
Proof.
  intros Hp Hcut Hrest Hcity.
  assert (shortPlace p = city) as Hshort.
  { unfold shortPlace. rewrite (cut_Some_includes _ _ _ _ Hcut).
    rewrite (split_cut "of " p of_nonempty), Hcut.
    rewrite (split_cut "of " _ of_nonempty), (cut_None _ _ Hrest).
    cbn [lookup list_lookup default from_option Datatypes.id].
    assert (cut "," (city +:+ "," +:+ rest) = Some (city, rest)) as Hc
      by exact (cut_char "," city rest Hcity).
    rewrite (cut_Some_includes _ _ _ _ Hc).
    rewrite (split_cut "," _ comma_nonempty), Hc. reflexivity. }
  unfold speechFor. rewrite Hp. cbn zeta.
  assert (or_else (Some p) "Unknown location" = p) as ->.
  { destruct p; [discriminate Hcut | reflexivity]. }
  rewrite Hshort. reflexivity.
Qed.

End Alerts.

(** ** One polling cycle, continued *)

Section Cycle.
Context `{JsNumerals}.


(** Every other field the arrival of a feature array writes. *)
Lemma settle_success_state (closure : State) (clock : Clock) (status : nat)
    (features : list (option Feature)) (s : State) :
  let valid := validFeatures features in
  let r := settle closure clock (Response status (Some (FeatureCollection features))) s in
  (exists x, r.1.1 = filterEffect x) /\
  r.2 = alertsFor r.1.2 /\
  recentCount r.1.1 = length (List.filter (recentAt clock) valid) /\
  lastUpdated r.1.1 = atUpdate clock /\
  isLoading r.1.1 = false /\
  startDate r.1.1 = startDate s /\ endDate r.1.1 = endDate s /\
  minMag r.1.1 = minMag s /\ isDownloading r.1.1 = isDownloading s /\
  showDebug r.1.1 = showDebug s /\ showMobileFilters r.1.1 = showMobileFilters s.
Proof.
  unfold settle, ingest. cbn zeta. cbn beta iota. cbn [fst snd].
  split; [eexists; reflexivity|].
  split; [reflexivity|].
  unfold filterEffect.
  destruct (earthquakes _); destruct (newEarthquakes _ _ _); repeat split; reflexivity.
Qed.

Lemma fetch_success_state (clock : Clock) (status : nat) (features : list (option Feature))
    (s : State) :
  let valid := validFeatures features in
  let r := fetchEarthquakes clock (Response status (Some (FeatureCollection features))) s in
  (exists x, r.1.1 = filterEffect x) /\
  r.2 = alertsFor r.1.2 /\
  recentCount r.1.1 = length (List.filter (recentAt clock) valid) /\
  lastUpdated r.1.1 = atUpdate clock /\
  isLoading r.1.1 = false /\
  startDate r.1.1 = startDate s /\ endDate r.1.1 = endDate s /\
  minMag r.1.1 = minMag s /\ isDownloading r.1.1 = isDownloading s /\
  showDebug r.1.1 = showDebug s /\ showMobileFilters r.1.1 = showMobileFilters s.
Proof.
  exact (settle_success_state (setIsLoading true s) clock status features
           (setIsLoading true s)).
Qed.

Lemma novel_admitted (clock : Clock) (result : FetchResult) (s : State) (f : Feature) :
  In f (fetchEarthquakes clock result s).1.2 ->
  validFeature f = true /\
  In f (earthquakes (fetchEarthquakes clock result s).1.1) /\
  laterThan (oneHourAgo (atNovelty clock)) (prop time f) = true /\
  exists i, id f = Some i /\
            i ∈ announcedEarthquakeIds (fetchEarthquakes clock result s).1.1.
Proof.
  intros Hf. destruct (raises result) eqn:Hr.
  - rewrite fetch_failure in Hf by assumption. destruct Hf.
  - destruct result as [|status [[|features]|]]; try discriminate.
    destruct (fetch_success clock status features s) as (Hn & _ & He & Ha).
    cbn zeta in Hn, He, Ha. rewrite Hn in Hf. rewrite He, Ha.
    pose proof (newEarthquakes_In _ _ _ _ Hf) as (Hv & _ & _ & Ht).
    pose proof (validFeatures_In _ _ Hv) as Hvalid.
    destruct (validFeature_id f Hvalid) as [i Hi].
    repeat split; try assumption. exists i. split; [exact Hi|].
    destruct (newEarthquakes (atNovelty clock) (validFeatures features) s) as [|g l] eqn:E;
      [destruct Hf|].
    apply elem_of_union_r. rewrite <- E in Hf. rewrite <- E.
    exact (idSet_intro _ _ _ Hf Hi).
Qed.

Lemma filter_length_le {A} (p q : A -> bool) (l : list A) :
  (forall x, p x = true -> q x = true) ->
  (length (List.filter p l) <= length (List.filter q l))%nat.
Proof.
  intros Hpq. induction l as [|x l IH]; [reflexivity|].
  simpl. destruct (p x) eqn:Ep.
  - rewrite (Hpq x Ep). simpl. lia.
  - destruct (q x); simpl; lia.
Qed.


(** An admitted record has a time, which is not zero. *)
Lemma validFeature_time (f : Feature) :
  validFeature f = true -> exists t, prop time f = Some t /\ t <> 0.
Proof.
  unfold validFeature, prop.
  destruct (geometry f) as [g|]; [|discriminate].
  destruct (coordinates g); [|discriminate].
  destruct (properties f) as [p|]; [|intros Hv; rewrite andb_false_r in Hv; discriminate].
  intros Hv. apply andb_true_iff in Hv as [_ Hv]. apply andb_true_iff in Hv as [Hv _].
  apply andb_true_iff in Hv as [Ht _]. cbn [mbind option_bind].
  destruct (time p) as [t|]; [|discriminate].
  exists t. split; [reflexivity|]. apply negb_true_iff, Z.eqb_neq in Ht. exact Ht.
Qed.

(** X8: a record a cycle reports as novel is in the new store; when its
    time is a date JavaScript can represent, it passes [isRecent] at every
    render whose two-day bound is a valid date not later than the cycle's
    one-hour bound, and its marker, where the map draws one, has the
    colour of recent events. *)
Theorem novel_records_are_recent (clock : Clock) (result : FetchResult) (s : State)
    (render : Z) (f : Feature) :
  let r := fetchEarthquakes clock result s in
  In f r.1.2 ->
  representable f = true ->
  inDateRange (render - 2 * 24 * 60 * 60 * 1000) = true ->
  render - 2 * 24 * 60 * 60 * 1000 <= oneHourAgo (atNovelty clock) ->
  In f (earthquakes r.1.1) /\
  isRecent render (prop time f) = true /\
  marker render f = if hasMarker f then Some "#ff4444" else None.
Proof.
  cbn zeta. intros Hf Hrange Hbound Hle.
  destruct (novel_admitted _ _ _ _ Hf) as (Hv & Hin & Ht & _).
  split; [exact Hin|].
  assert (isRecent render (prop time f) = true) as Hrec.
  { destruct (validFeature_time f Hv) as (t & Htime & Hnz).
    unfold representable in Hrange. rewrite Htime in Hrange, Ht.
    unfold isRecent. rewrite Htime. cbn [truthyZ mbind option_bind].
    apply Z.eqb_neq in Hnz. rewrite Hnz. cbn [negb].
    unfold newDate. rewrite Hrange, Hbound. cbn [Date_gt].
    unfold laterThan in Ht. apply Z.ltb_lt in Ht. apply Z.ltb_lt. lia. }
  split; [exact Hrec|]. unfold marker, markerColor. rewrite Hrec. reflexivity.
Qed.

(** X9: on the first cycle after mounting (nothing seen, nothing
    announced) every admitted record less than an hour old at the novelty
    test is reported as novel.  The recent count is taken on a later clock
    reading, stepped back one local hour: when that bound, if it is a
    valid date, is not earlier than the bound of the novelty test, no more
    records are counted recent than are reported as novel. *)
Theorem first_cycle_announces_recent (clock : Clock) (status : nat)
    (features : list (option Feature)) (s : State) :
  previousEarthquakeIds s = ∅ ->
  announcedEarthquakeIds s = ∅ ->
  (forall bound, hourBefore (atRecent clock) = Some bound ->
                 oneHourAgo (atNovelty clock) <= bound) ->
  let r := fetchEarthquakes clock (Response status (Some (FeatureCollection features))) s in
  r.1.2 = List.filter (fun f => laterThan (oneHourAgo (atNovelty clock)) (prop time f))
            (validFeatures features) /\
  (recentCount r.1.1 <= length r.1.2)%nat.
Proof.
  intros Hp Ha Hle. cbn zeta.
  destruct (fetch_success clock status features s) as (Hn & _).
  destruct (fetch_success_state clock status features s) as (_ & _ & Hc & _).
  cbn zeta in Hn, Hc. rewrite Hc, Hn. unfold newEarthquakes. rewrite Hp, Ha.
  assert (forall f, Set_has ∅ (id f) = false) as Hno.
  { intros f. destruct (id f); [|reflexivity]. apply Set_has_false. set_solver. }
  split; [apply filter_ext; intros f; rewrite Hno; reflexivity|].
  apply filter_length_le. intros f Hf. rewrite Hno. cbn [negb andb].
  unfold recentAt in Hf. apply andb_true_iff in Hf as [_ Hf].
  destruct (prop time f) as [t|]; [|discriminate Hf]. cbn [mbind option_bind] in Hf.
  unfold newDate in Hf. destruct (inDateRange t); [|discriminate Hf].
  destruct (hourBefore (atRecent clock)) as [bound|] eqn:Eb; [|discriminate Hf].
  cbn [Date_gt] in Hf. apply Z.ltb_lt in Hf. apply Z.ltb_lt.
  specialize (Hle bound eq_refl). lia.
Qed.

(** X10: whatever its outcome, a cycle ends with the loading flag
    cleared and leaves the criteria and the other flags as they were. *)
Theorem cycle_frame (clock : Clock) (result : FetchResult) (s : State) :
  let s' := (fetchEarthquakes clock result s).1.1 in
  isLoading s' = false /\
  startDate s' = startDate s /\ endDate s' = endDate s /\ minMag s' = minMag s /\
  isDownloading s' = isDownloading s /\
  showDebug s' = showDebug s /\ showMobileFilters s' = showMobileFilters s.
Proof.
  cbn zeta. destruct (raises result) eqn:Hr.
  - rewrite fetch_failure by assumption. repeat split; reflexivity.
  - destruct result as [|status [[|features]|]]; try discriminate.
    destruct (fetch_success_state clock status features s)
      as (_ & _ & _ & _ & H1 & H2 & H3 & H4 & H5 & H6 & H7).
    cbn zeta in *. repeat split; assumption.
Qed.



End Cycle.

(** ** The requests of a cycle *)

Section Requests.
Context `{JsRuntime}.

Lemma beeps_app (a b : list Effect) : beeps (a ++ b) = (beeps a + beeps b)%nat.
Proof. unfold beeps. rewrite List.filter_app, length_app. reflexivity. Qed.

Lemma saved_app (a b : list Effect) : saved (a ++ b) = (saved a + saved b)%nat.
Proof. unfold saved. rewrite List.filter_app, length_app. reflexivity. Qed.

Lemma spoken_app (a b : list Effect) : spoken (a ++ b) = spoken a ++ spoken b.
Proof. apply omap_app. Qed.

Lemma alerted_app (a b : list Effect) : alerted (a ++ b) = alerted a ++ alerted b.
Proof. apply omap_app. Qed.

Lemma speeches_read (l : list Feature) :
  beeps (concat (map speechFor l)) = 0%nat /\
  saved (concat (map speechFor l)) = 0%nat /\
  alerted (concat (map speechFor l)) = [] /\
  length (spoken (concat (map speechFor l))) = length l.
Proof.
  induction l as [|f l (Hb & Hs & Ha & Hl)]; [repeat split; reflexivity|].
  cbn [map concat]. rewrite beeps_app, saved_app, alerted_app, spoken_app, length_app.
  rewrite Hb, Hs, Ha, Hl. repeat split; reflexivity.
Qed.

Lemma last_nil_iff {A} (l : list A) : last l = None <-> l = [].
Proof.
  split; [|intros ->; reflexivity].
  induction l as [|x [|y l] IH]; [reflexivity | discriminate |].
  intros Hl. cbn [last] in Hl. specialize (IH Hl). discriminate.
Qed.

(** X12: a cycle that reports novel records requests one beep, one spoken
    message per novel record and one alert box; any other cycle requests
    none of these; no cycle saves a file. *)
Theorem alerts_shape (clock : Clock) (result : FetchResult) (s : State) :
  let r := fetchEarthquakes clock result s in
  beeps r.2 = Nat.min 1 (length r.1.2) /\
  length (spoken r.2) = length r.1.2 /\
  length (alerted r.2) = Nat.min 1 (length r.1.2) /\
  saved r.2 = 0%nat.
Proof.
  cbn zeta. destruct (raises result) eqn:Hr.
  - rewrite fetch_failure by assumption. repeat split; reflexivity.
  - destruct result as [|status [[|features]|]]; try discriminate.
    unfold fetchEarthquakes, settle. cbn zeta.
    destruct (ingest clock features (setIsLoading true s) (setIsLoading true s))
      as [s' novel].
    cbn [fst snd]. unfold alertsFor.
    destruct (last novel) as [latest|] eqn:El.
    + destruct novel as [|f l]; [discriminate El|].
      destruct (speeches_read (f :: l)) as (Hb & Hs & Ha & Hl).
      change (PlayBeep :: concat (map speechFor (f :: l)) ++ [headline latest])
        with ([PlayBeep] ++ concat (map speechFor (f :: l)) ++ [headline latest]).
      rewrite !beeps_app, !saved_app, !alerted_app, !spoken_app, !length_app.
      rewrite Hb, Hs, Ha, Hl. cbn. repeat split; lia.
    + apply last_nil_iff in El. subst novel. repeat split; reflexivity.
Qed.

End Requests.

(** ** Invariants of the mounted component *)

Section Machine.
Context `{JsNumerals}.

Lemma downloadCSV_state (s : State) : (downloadCSV s).1 = s.
Proof.
  unfold downloadCSV. destruct (filteredEarthquakes s); [reflexivity|].
  destruct (mapM csvRow _); reflexivity.
Qed.

Lemma downloadKMZ_state (zipOk : bool) (s : State) :
  (downloadKMZ zipOk s).1 = s \/ (downloadKMZ zipOk s).1 = setIsDownloading false s.
Proof.
  unfold downloadKMZ. destruct (filteredEarthquakes s); [left; reflexivity|].
  right. cbn zeta. destruct (generateKML _); [destruct zipOk|]; reflexivity.
Qed.

Lemma filterEffect_inStep (s : State) : filteredInStep (filterEffect s).
Proof.
  unfold filteredInStep, filterEffect.
  destruct (earthquakes s) eqn:E; cbn; rewrite E; reflexivity.
Qed.

Lemma after_cons (e : Event) (events : list Event) (s : State) :
  after (e :: events) s = after events (step e s).1.
Proof. reflexivity. Qed.

(** A property every event preserves holds after any sequence of events. *)
Lemma after_invariant (P : State -> Prop) :
  (forall e s, P s -> P (step e s).1) ->
  forall events s, P s -> P (after events s).
Proof.
  intros Hstep events. induction events as [|e events IH]; intros s Hs; [exact Hs|].
  rewrite after_cons. apply IH, Hstep, Hs.
Qed.

Lemma step_arrive (closure : State) (clock : Clock) (result : FetchResult) (s : State) :
  (step (Arrive closure clock result) s).1 =
    if raises result then (settle closure clock result s).1.1
    else setIsLoading true (settle closure clock result s).1.1.
Proof.
  cbn [step]. destruct (settle closure clock result s) as [[s' novel] effects].
  destruct result as [|status [[|features]|]]; reflexivity.
Qed.

Lemma settle_admitted (closure : State) (clock : Clock) (result : FetchResult) (s : State) :
  Forall (fun r => validFeature r = true) (earthquakes s) ->
  Forall (fun r => validFeature r = true) (earthquakes (settle closure clock result s).1.1).
Proof.
  intros Hs. destruct (raises result) eqn:Hr.
  - rewrite settle_failure by assumption. exact Hs.
  - destruct result as [|status [[|features]|]]; try discriminate.
    destruct (settle_success closure clock status features s) as (_ & _ & -> & _).
    apply List.Forall_forall. intros r Hr'.
    exact (validFeatures_In _ _ Hr').
Qed.

Lemma step_admitted (e : Event) (s : State) :
  Forall (fun r => validFeature r = true) (earthquakes s) ->
  Forall (fun r => validFeature r = true) (earthquakes (step e s).1).
Proof.
  intros Hs. destruct e as [|closure clock result| | | | | | | | |zipOk];
    try (cbn [step fst]; rewrite ?filterEffect_earthquakes; exact Hs).
  - rewrite step_arrive.
    destruct (raises result); exact (settle_admitted closure clock result s Hs).
  - destruct narrow; exact Hs.
  - cbn [step]. rewrite downloadCSV_state. exact Hs.
  - cbn [step]. destruct (downloadKMZ_state zipOk s) as [-> | ->]; exact Hs.
Qed.

Lemma step_inStep (e : Event) (s : State) :
  filteredInStep s -> filteredInStep (step e s).1.
Proof.
  intros Hs. destruct e as [|closure clock result| | | | | | | | |zipOk];
    try (cbn [step fst]; apply filterEffect_inStep);
    try (cbn [step fst]; exact Hs).
  - rewrite step_arrive. destruct (raises result) eqn:Hr.
    + rewrite settle_failure by assumption. exact Hs.
    + destruct result as [|status [[|features]|]]; try discriminate.
      destruct (settle_success_state closure clock status features s) as ([x Hx] & _).
      cbn zeta in Hx. rewrite Hx. exact (filterEffect_inStep x).
  - destruct narrow; exact Hs.
  - cbn [step]. rewrite downloadCSV_state. exact Hs.
  - cbn [step]. destruct (downloadKMZ_state zipOk s) as [-> | ->]; exact Hs.
Qed.

Lemma step_seen (e : Event) (s : State) :
  previousEarthquakeIds s = idSet (earthquakes s) ->
  previousEarthquakeIds (step e s).1 = idSet (earthquakes (step e s).1).
Proof.
  intros Hs. destruct e as [|closure clock result| | | | | | | | |zipOk];
    try (cbn [step fst]; rewrite ?filterEffect_earthquakes, ?filterEffect_previous;
         exact Hs).
  - rewrite step_arrive. destruct (raises result) eqn:Hr.
    + rewrite settle_failure by assumption. exact Hs.
    + destruct result as [|status [[|features]|]]; try discriminate.
      destruct (settle_success closure clock status features s) as (_ & Hp & He & _).
      cbn zeta in Hp, He.
      change (previousEarthquakeIds (setIsLoading true ?x)) with (previousEarthquakeIds x).
      change (earthquakes (setIsLoading true ?x)) with (earthquakes x).
      rewrite Hp, He. reflexivity.
  - destruct narrow; exact Hs.
  - cbn [step]. rewrite downloadCSV_state. exact Hs.
  - cbn [step]. destruct (downloadKMZ_state zipOk s) as [-> | ->]; exact Hs.
Qed.

(** X13: whatever happens to the mounted component, the record store
    only holds admitted records: each has an id, a time, three coordinates
    and a place the classifier accepts. *)
Theorem store_always_admitted (now : Z) (events : list Event) :
  Forall (fun r => validFeature r = true)
         (earthquakes (after events (initialState now))).
Proof.
  apply (after_invariant (fun s => Forall (fun r => validFeature r = true) (earthquakes s))).
  - exact step_admitted.
  - constructor.
Qed.

(** X14: whatever happens, the filtered list is the filter of the record
    store under the criteria in force. *)
Theorem filtered_always_in_step (now : Z) (events : list Event) :
  let s := after events (initialState now) in
  filteredEarthquakes s = List.filter (passesFilters s) (earthquakes s).
Proof.
  apply (after_invariant filteredInStep); [exact step_inStep | reflexivity].
Qed.

(** X15: whatever happens, calls that overlap included, the ids seen in
    the last cycle are those of the record store. *)
Theorem seen_always_store (now : Z) (events : list Event) :
  let s := after events (initialState now) in
  previousEarthquakeIds s = idSet (earthquakes s).
Proof.
  cbn zeta.
  apply (after_invariant (fun s => previousEarthquakeIds s = idSet (earthquakes s)));
    [exact step_seen | reflexivity].
Qed.

End Machine.

(** ** FilterEngine, continued *)

Section FilterMore.
Context `{JsNumerals} `{!JsNumeralLaws}.

Lemma filterEffect_filtered (s : State) :
  filteredEarthquakes (filterEffect s) = List.filter (passesFilters s) (earthquakes s).
Proof. unfold filterEffect. destruct (earthquakes s) eqn:E; reflexivity. Qed.

(** X16: filtering is idempotent: run on its own result, under the same
    criteria, the filter returns that result. *)
Theorem filter_twice (s : State) :
  filteredEarthquakes
    (filterEffect (setEarthquakes (filteredEarthquakes (filterEffect s)) s)) =
  filteredEarthquakes (filterEffect s).
Proof.
  rewrite !filterEffect_filtered.
  change (earthquakes (setEarthquakes ?l s)) with l.
  change (passesFilters (setEarthquakes ?l s)) with (passesFilters s).
  apply filter_idempotent.
Qed.

Lemma passes_narrower (s s' : State) (r : Feature) (d1 d1' d2 d2' : Z) :
  Date_parse (startDate s) = Some d1 -> Date_parse (startDate s') = Some d1' ->
  d1 <= d1' -> startDate s' <> "" ->
  Date_parse (endDate s) = Some d2 -> Date_parse (endDate s') = Some d2' ->
  d2' <= d2 -> endDate s' <> "" ->
  num_ge (minMag s') (minMag s) = true ->
  passesFilters s' r = true -> passesFilters s r = true.
Proof.
  intros Ps Ps' Hle1 Hne1 Pe Pe' Hle2 Hne2 Hmag.
  unfold passesFilters.
  destruct (properties r) as [p|]; [|discriminate].
  destruct (geometry r); [|discriminate].
  destruct (if truthyZ (time p) then newDate <$> time p else None) as [eqTime|];
    [|discriminate].
  destruct (mag p) as [m|]; [|discriminate].
  rewrite Ps, Ps', Pe, Pe'. cbn zeta.
  destruct (startDate s') as [|c1 x1]; [congruence|].
  destruct (endDate s') as [|c2 x2]; [congruence|].
  cbn [truthyS negb orb]. intros Hp.
  apply andb_true_iff in Hp as [Hp Hm]. apply andb_true_iff in Hp as [Hs He].
  destruct eqTime as [t|]; [|discriminate Hs]. cbn [Date_ge Date_le] in *.
  apply Z.leb_le in Hs, He.
  rewrite (num_ge_trans _ _ _ Hm Hmag), andb_true_r.
  apply andb_true_iff. split; apply orb_true_iff; right; apply Z.leb_le; lia.
Qed.

(** X17: narrowing the criteria never adds a record: with a later start
    date, an earlier end date and a higher minimum magnitude, every record
    of the new filtered list was in the old one. *)
Theorem narrowing_never_adds (s : State) (start stop : string) (minimum : num)
    (d1 d1' d2 d2' : Z) (r : Feature) :
  Date_parse (startDate s) = Some d1 -> Date_parse start = Some d1' ->
  d1 <= d1' -> start <> "" ->
  Date_parse (endDate s) = Some d2 -> Date_parse stop = Some d2' ->
  d2' <= d2 -> stop <> "" ->
  num_ge minimum (minMag s) = true ->
  In r (filteredEarthquakes
          (filterEffect (setMinMag minimum (setEndDate stop (setStartDate start s))))) ->
  In r (filteredEarthquakes (filterEffect s)).
Proof.
  intros Ps Ps' Hle1 Hne1 Pe Pe' Hle2 Hne2 Hmag.
  rewrite !filterEffect_filtered.
  change (earthquakes (setMinMag _ _)) with (earthquakes s).
  intros Hr. apply filter_In in Hr as [Hin Hp]. apply filter_In. split; [exact Hin|].
  exact (passes_narrower s (setMinMag minimum (setEndDate stop (setStartDate start s)))
           r d1 d1' d2 d2' Ps Ps' Hle1 Hne1 Pe Pe' Hle2 Hne2 Hmag Hp).
Qed.

(** X18: a stronger earthquake never gets a milder colour. *)
Theorem colour_monotone (m1 m2 : num) :
  num_ge m1 m2 = true ->
  (severity (getMagnitudeColor (Some m2)) <= severity (getMagnitudeColor (Some m1)))%nat.
Proof.
  intros Hge. unfold getMagnitudeColor.
  destruct (negb (num_truthy m1) && negb (num_eq m1 (num_of_Z 0))) eqn:E1.
  { apply andb_true_iff in E1 as [Ht Hz]. apply negb_true_iff in Ht, Hz.
    rewrite (num_ge_nan m1 m2 Ht Hz) in Hge. discriminate. }
  destruct (negb (num_truthy m2) && negb (num_eq m2 (num_of_Z 0))); [cbn; lia|].
  destruct (num_ge m2 (num_of_Z 6)) eqn:E6.
  { rewrite (num_ge_trans _ _ _ Hge E6). reflexivity. }
  destruct (num_ge m2 (num_of_Z 5)) eqn:E5.
  { rewrite (num_ge_trans _ _ _ Hge E5). destruct (num_ge m1 (num_of_Z 6)); cbn; lia. }
  destruct (num_ge m2 (num_of_Z 4)) eqn:E4.
  { rewrite (num_ge_trans _ _ _ Hge E4).
    destruct (num_ge m1 (num_of_Z 6)), (num_ge m1 (num_of_Z 5)); cbn; lia. }
  cbn. lia.
Qed.

End FilterMore.

(** ** ExportSerializer, continued *)

Section ExportMore.
Context `{JsRuntime}.

(** [toISOString] raises exactly on a time that is no valid date. *)
Lemma kmlTime_None (r : Feature) :
  kmlTime r = None <-> representable r = false.
Proof.
  unfold kmlTime, representable, newDate.
  destruct (prop time r) as [t|]; [|split; discriminate].
  destruct (t =? 0) eqn:Ez.
  - apply Z.eqb_eq in Ez. subst t. split; discriminate.
  - destruct (inDateRange t); split; (discriminate || reflexivity).
Qed.

Lemma placemark_None (r : Feature) :
  placemark r = None <->
  geometry r ≫= coordinates = None \/ representable r = false.
Proof.
  unfold placemark. destruct (geometry r) as [g|]; [|split; auto].
  cbn [mbind option_bind]. destruct (coordinates g); [|split; auto].
  cbn [mbind option_bind]. rewrite <- kmlTime_None.
  destruct (kmlTime r); cbn [mbind option_bind].
  - split; [discriminate | intros [Hx | Hx]; discriminate].
  - split; auto.
Qed.

Lemma kml_fold_None (records : list Feature) :
  foldl (fun acc eq => kmlContent ← acc; block ← placemark eq;
                       Some (kmlContent +:+ block)) None records = None.
Proof. induction records as [|r records IH]; [reflexivity | exact IH]. Qed.

Lemma kml_fold_Some (records : list Feature) (acc : string) :
  is_Some (foldl (fun acc eq => kmlContent ← acc; block ← placemark eq;
                                Some (kmlContent +:+ block)) (Some acc) records) <->
  Forall (fun r => is_Some (placemark r)) records.
Proof.
  revert acc. induction records as [|r records IH]; intros acc.
  - split; [constructor | eauto].
  - cbn [foldl mbind option_bind]. destruct (placemark r) as [b|] eqn:Er.
    + cbn [mbind option_bind]. rewrite IH. split.
      * intros Hf. constructor; [eauto | exact Hf].
      * intros Hf. apply Forall_cons in Hf as [_ Hf]. exact Hf.
    + cbn [mbind option_bind]. rewrite kml_fold_None. split.
      * intros [x Hx]. discriminate.
      * intros Hf. apply Forall_cons in Hf as [[x Hx] _]. congruence.
Qed.

Lemma placemark_all_or_none (records : list Feature) :
  Forall (fun r => is_Some (placemark r)) records \/
  exists r, In r records /\ placemark r = None.
Proof.
  induction records as [|r records [IH | (x & Hx & Hnone)]].
  - left. constructor.
  - destruct (placemark r) as [b|] eqn:Er.
    + left. constructor; [rewrite Er; eauto | exact IH].
    + right. exists r. split; [left; reflexivity | exact Er].
  - right. exists x. split; [right; exact Hx | exact Hnone].
Qed.

(** X19: [generateKML] raises exactly when some record has no
    coordinates array, or a time that is no date JavaScript can represent
    (its [toISOString] raises); otherwise it returns a document. *)
Theorem generateKML_raises_iff (records : list Feature) :
  generateKML records = None <->
  exists r, In r records /\
    (geometry r ≫= coordinates = None \/ representable r = false).
Proof.
  unfold generateKML.
  pose proof (kml_fold_Some records kmlHeader) as Hfold.
  destruct (foldl _ (Some kmlHeader) records) as [kml|] eqn:E.
  - cbn [mbind option_bind]. split; [discriminate|].
    intros (r & Hr & Hnone).
    assert (Forall (fun r => is_Some (placemark r)) records) as Hall
      by (apply Hfold; eauto).
    rewrite List.Forall_forall in Hall. destruct (Hall r Hr) as [b Hb].
    apply placemark_None in Hnone. congruence.
  - cbn [mbind option_bind]. split; [intros _|reflexivity].
    destruct (placemark_all_or_none records) as [Hall | (r & Hr & Hnone)].
    + apply Hfold in Hall as [x Hx]. discriminate.
    + exists r. split; [exact Hr | apply placemark_None, Hnone].
Qed.

Lemma csvCoord_None (c : option (option num)) (d : nat) :
  csvCoord c d = None <-> c = None.
Proof. destruct c as [[x|]|]; split; intros Hc; try discriminate; reflexivity. Qed.

Lemma csvRow_None (r : Feature) :
  csvRow r = None <->
  geometry r = None \/
  exists cs, geometry r ≫= coordinates = Some cs /\ (length cs < 3)%nat.
Proof.
  unfold csvRow, csvFields. destruct (geometry r) as [g|].
  2:{ split; [left; reflexivity | reflexivity]. }
  cbn [mbind option_bind].
  destruct (coordinates g) as [cs|].
  - cbn [default from_option Datatypes.id].
    destruct cs as [|a [|b [|c cs]]]; cbn [lookup list_lookup].
    + split; [intros _; right; exists []; split; [reflexivity | cbn; lia] | reflexivity].
    + split; [intros _; right; exists [a]; split; [reflexivity | cbn; lia]|].
      intros _. destruct (csvCoord (Some a) 6); reflexivity.
    + split; [intros _; right; exists [a; b]; split; [reflexivity | cbn; lia]|].
      intros _. destruct (csvCoord (Some a) 6), (csvCoord (Some b) 6); reflexivity.
    + destruct a, b, c; cbn; split; try discriminate;
        intros [Hg | (cs' & Hcs & Hlen)]; try discriminate;
        injection Hcs as <-; cbn in Hlen; lia.
  - cbn. split; [discriminate|].
    intros [Hg | (cs' & Hcs & _)]; discriminate.
Qed.

(** X20: with something to export, [downloadCSV] raises exactly when
    some record has no geometry or a coordinates array shorter than three
    (a missing coordinates array gives empty cells instead); otherwise it
    saves one file. *)
Theorem downloadCSV_raises_iff (s : State) :
  filteredEarthquakes s <> [] ->
  ((downloadCSV s).2 = [Uncaught] <->
   exists r, In r (filteredEarthquakes s) /\
     (geometry r = None \/
      exists cs, geometry r ≫= coordinates = Some cs /\ (length cs < 3)%nat)) /\
  ((downloadCSV s).2 <> [Uncaught] -> saved (downloadCSV s).2 = 1%nat).
Proof.
  intros Hne. unfold downloadCSV.
  destruct (filteredEarthquakes s) as [|r0 l] eqn:El; [congruence|].
  rewrite <- El. clear Hne.
  destruct (mapM csvRow (filteredEarthquakes s)) as [rows|] eqn:Em.
  - split; [|reflexivity]. cbn [snd]. split; [discriminate|].
    intros (r & Hr & Hbad). apply csvRow_None in Hbad.
    apply mapM_Some in Em. apply list_elem_of_In in Hr.
    apply list_elem_of_lookup in Hr as [i Hi].
    destruct (Forall2_lookup_l _ _ _ i r Em Hi) as (row & _ & Hrow). congruence.
  - cbn [snd]. split; [|congruence]. split; [intros _|reflexivity].
    apply mapM_None in Em. apply Exists_exists in Em as (r & Hr & Hnone).
    exists r. split; [apply list_elem_of_In, Hr | apply csvRow_None, Hnone].
Qed.

(** X21: the exports leave the component's data alone: [downloadCSV]
    returns the state it was given, and [downloadKMZ] changes at most the
    downloading flag, which it leaves down; when the archive cannot be
    generated nothing is saved and the failure is reported. *)
Theorem exports_keep_state (zipOk : bool) (s : State) :
  (downloadCSV s).1 = s /\
  ((downloadKMZ zipOk s).1 = s \/ (downloadKMZ zipOk s).1 = setIsDownloading false s) /\
  (filteredEarthquakes s <> [] -> isDownloading (downloadKMZ zipOk s).1 = false) /\
  (filteredEarthquakes s <> [] ->
   saved (downloadKMZ false s).2 = 0%nat /\
   alerted (downloadKMZ false s).2 = ["Error creating KMZ file. Please try again."]).
Proof.
  split; [apply downloadCSV_state|]. split; [apply downloadKMZ_state|].
  unfold downloadKMZ. destruct (filteredEarthquakes s) as [|r l] eqn:El.
  - split; intros Hne; congruence.
  - cbn zeta. split; intros _.
    + destruct (generateKML _); [destruct zipOk|]; reflexivity.
    + destruct (generateKML _); split; reflexivity.
Qed.

End ExportMore.

(** ** Map markers *)

Section Markers.
Context `{JsNumerals}.

Lemma validFeature_coordinates (r : Feature) :
  validFeature r = true ->
  exists lon lat depth, geometry r ≫= coordinates = Some [lon; lat; depth].
Proof.
  unfold validFeature. destruct (geometry r) as [g|]; [|discriminate].
  cbn [mbind option_bind].
  destruct (coordinates g) as [cs|]; [|discriminate].
  intros Hv. apply andb_true_iff in Hv as [Hlen _]. apply Nat.eqb_eq in Hlen.
  destruct cs as [|lon [|lat [|depth [|]]]]; try discriminate. eauto.
Qed.

(** X22: after any sequence of events, a record of the filtered list
    gets a marker on the map exactly when its longitude and latitude are
    both numbers other than zero (and NaN): a record on the equator or on
    the prime meridian, or with a null coordinate, is filtered in but not
    drawn. *)
Theorem marker_for_filtered (now : Z) (events : list Event) (r : Feature) :
  In r (filteredEarthquakes (after events (initialState now))) ->
  exists lon lat depth,
    geometry r ≫= coordinates = Some [lon; lat; depth] /\
    hasMarker r = coordTruthy (Some lon) && coordTruthy (Some lat).
Proof.
  intros Hr.
  assert (Forall (fun r => validFeature r = true)
            (earthquakes (after events (initialState now))) /\
          filteredInStep (after events (initialState now))) as [Hall Hstep].
  { apply (after_invariant
             (fun s => Forall (fun r => validFeature r = true) (earthquakes s) /\
                       filteredInStep s)).
    - intros e s [Ha Hf]. split; [apply step_admitted, Ha | apply step_inStep, Hf].
    - split; [constructor | reflexivity]. }
  unfold filteredInStep in Hstep.
  rewrite Hstep in Hr. apply filter_In in Hr as [Hin Hpass].
  rewrite List.Forall_forall in Hall. specialize (Hall r Hin).
  destruct (validFeature_coordinates r Hall) as (lon & lat & depth & Hcs).
  exists lon, lat, depth. split; [exact Hcs|].
  unfold hasMarker. rewrite Hcs. cbn [length Nat.ltb Nat.leb lookup list_lookup].
  pose proof (passesFilters_mag _ _ Hpass) as Hmag.
  destruct (prop mag r) as [m|]; [|congruence].
  cbn zeta. unfold coordTruthy, coordIsNaN.
  destruct lon as [x|], lat as [y|]; cbn [negb orb andb]; try reflexivity.
  - destruct (num_truthy x), (num_truthy y); reflexivity.
  - destruct (num_truthy x); reflexivity.
Qed.

End Markers.

(** ** Worked examples, continued *)

Module WorkedMore.
Import Js Example Demo.
#[local] Existing Instance runtime.
#[local] Existing Instance numerals.

Lemma numeralLaws : JsNumeralLaws.
Proof.
  split.
  - intros a b c Hab Hbc. cbn in *. apply Z.leb_le in Hab, Hbc. apply Z.leb_le. lia.
  - intros a b Ht Hz. cbn in *. apply negb_false_iff, Z.eqb_eq in Ht.
    apply Z.eqb_neq in Hz. congruence.
Qed.

Lemma spoken_location_witness :
  speechFor rD =
    [CancelSpeech; Speak "New earthquake detected. Magnitude 5.0 at Mekele."].
Proof.
  apply (spoken_location rD "52 km NNE of Mekele, Ethiopia" "52 km NNE " "Mekele" " Ethiopia");
    reflexivity.
Defined.

Lemma novel_of_feed :
  (fetchEarthquakes (readings now) (Response 200 (Some (FeatureCollection feed))) initial).1.2
  = [rD].
Proof. reflexivity. Qed.

(** A render one day after the cycle. *)
Lemma novel_records_are_recent_witness :
  let r := fetchEarthquakes (readings now) (Response 200 (Some (FeatureCollection feed)))
             initial in
  In rD (earthquakes r.1.1) /\
  isRecent (now + 86400000) (prop time rD) = true /\
  marker (now + 86400000) rD = if hasMarker rD then Some "#ff4444" else None.
Proof.
  apply (novel_records_are_recent (readings now)
           (Response 200 (Some (FeatureCollection feed))) initial (now + 86400000) rD).
  - rewrite novel_of_feed. left. reflexivity.
  - reflexivity.
  - reflexivity.
  - unfold oneHourAgo, readings, now. cbn [atNovelty]. lia.
Defined.

Lemma first_cycle_announces_recent_witness :
  let r := fetchEarthquakes (readings now) (Response 200 (Some (FeatureCollection feed)))
             initial in
  validFeatures feed = [rA; rB; rD] /\
  r.1.2 = List.filter (fun f => laterThan (oneHourAgo now) (prop time f))
            (validFeatures feed) /\
  (recentCount r.1.1 <= length r.1.2)%nat.
Proof.
  split; [reflexivity|].
  apply (first_cycle_announces_recent (readings now) 200 feed initial);
    [reflexivity | reflexivity |].
  intros bound Hb. injection Hb as <-.
  unfold oneHourAgo, readings, now. cbn [atNovelty]. lia.
Defined.


Lemma narrowing_never_adds_witness :
  let s := setEarthquakes [rA; rB; rD] initial in
  filteredEarthquakes
    (filterEffect (setMinMag 5 (setEndDate "2023-11-15" (setStartDate "2023-11-01" s))))
    = [rD] /\
  In rD (filteredEarthquakes (filterEffect s)).
Proof.
  intros s. split; [reflexivity|].
  apply (@narrowing_never_adds runtime numerals numeralLaws s "2023-11-01" "2023-11-15" 5
           946684800000 1698796800000 1700006400000 1700006400000 rD);
    try reflexivity; try discriminate; try lia.
  left. reflexivity.
Defined.

Lemma colour_monotone_witness :
  getMagnitudeColor (Some 4) = "#ffc107" /\ getMagnitudeColor (Some 6) = "#dc3545" /\
  (severity (getMagnitudeColor (Some 4%Z)) <= severity (getMagnitudeColor (Some 6%Z)))%nat.
Proof.
  split; [reflexivity|]. split; [reflexivity|].
  apply (@colour_monotone runtime numerals numeralLaws 6 4). reflexivity.
Defined.

Lemma downloadCSV_raises_iff_witness :
  (downloadCSV (showing [rA; rNoTime])).2 <> [Uncaught] /\
  saved (downloadCSV (showing [rA; rNoTime])).2 = 1%nat /\
  (downloadCSV (showing [rA; rShort])).2 = [Uncaught].
Proof.
  assert (filteredEarthquakes (showing [rA; rNoTime]) <> []) as Hne by discriminate.
  destruct (downloadCSV_raises_iff (showing [rA; rNoTime]) Hne) as [_ Hsaved].
  assert ((downloadCSV (showing [rA; rNoTime])).2 <> [Uncaught]) as Hok by discriminate.
  split; [exact Hok|]. split; [exact (Hsaved Hok)|].
  assert (filteredEarthquakes (showing [rA; rShort]) <> []) as Hne' by discriminate.
  destruct (downloadCSV_raises_iff (showing [rA; rShort]) Hne') as [[_ Hraise] _].
  apply Hraise. exists rShort. split; [right; left; reflexivity|].
  right. eexists. split; [reflexivity | cbn; lia].
Defined.

Lemma session_filtered :
  filteredEarthquakes (after session (initialState now)) = [rD].
Proof. reflexivity. Qed.

Lemma marker_for_filtered_witness :
  In rD (filteredEarthquakes (after session (initialState now))) /\
  exists lon lat depth,
    geometry rD ≫= coordinates = Some [lon; lat; depth] /\
    hasMarker rD = coordTruthy (Some lon) && coordTruthy (Some lat).
Proof.
  assert (In rD (filteredEarthquakes (after session (initialState now)))) as Hin
    by (rewrite session_filtered; left; reflexivity).
  split; [exact Hin|]. exact (marker_for_filtered now session rD Hin).
Defined.

(** The invariants on the session of [Demo]. *)
Lemma session_sample :
  let s := after session (initialState now) in
  map id (earthquakes s) = [Some "us6000a"; Some "us6000b"; Some "us6000d"] /\
  map id (filteredEarthquakes s) = [Some "us6000d"] /\
  minMag s = 5 /\ endDate s = "2023-11-15" /\
  announcedEarthquakeIds s = {[ "us6000d" ]}.
Proof. repeat split; reflexivity. Qed.

(** [generateKML] and [downloadCSV] on records the feed never stores. *)
Lemma export_raises_sample :
  generateKML [rA; rNoGeometry] = None /\
  (downloadCSV (showing [rA; rNoGeometry])).2 = [Uncaught] /\
  (downloadKMZ true (showing [rA; rNoGeometry])).2 =
    [ConsoleError "Error creating KMZ:";
     Alert "Error creating KMZ file. Please try again."].
Proof. repeat split; reflexivity. Qed.

End WorkedMore.
